(** * CommonMark-py: the HTML renderer (CommonMark/html.py)

    A shallow embedding of [CommonMark/html.py]: the tag builder [tag], the
    URL safety filter [potentially_unsafe], the output buffer ([out], [cr])
    and the renderer [HtmlRenderer] with its per-node-type handlers and the
    traversal driver [renderNodes].

    Modelling choices.
    - Python strings are [string]s of characters with code points below
      256.  On them [re.IGNORECASE] is the folding of the ASCII letters, and
      [\s] is the white space of a Python 3 [str] pattern: the code points
      9 to 13, 28 to 32, 133 and 160.
    - Python integers are unbounded: [Z].
    - Python dictionaries ([options], [list_data]) are [gmap string pyval].
    - The renderer keeps [buf], [last_out] and [disable_tags] on the
      instance; they are the record [State], threaded through a small
      state-and-exception monad.  An exception leaves the fields as they
      were when it was raised.
    - [block.walker()] is external: the sequence of events it yields is the
      input of [renderNodes]. *)

From Stdlib Require Import ZArith Ascii String List Lia Bool.
From stdpp Require Import base option gmap strings pretty.
Import ListNotations.

Local Open Scope Z_scope.

(** ** Characters and regular expressions *)

(** ASCII case folding used by [re.IGNORECASE]. *)
Definition lower (c : ascii) : ascii :=
  let n := N_of_ascii c in
  if ((65 <=? n) && (n <=? 90))%N then ascii_of_N (n + 32) else c.

Definition eqb_ci (a b : ascii) : bool := Ascii.eqb (lower a) (lower b).

(** [match_ci p s]: the literal pattern [p] matches at the start of [s],
    ignoring case ([re.match] with a literal pattern and [re.IGNORECASE]). *)
Fixpoint match_ci (p s : string) : bool :=
  match p, s with
  | EmptyString, _ => true
  | String _ _, EmptyString => false
  | String a p', String b s' => eqb_ci a b && match_ci p' s'
  end.

(** [search_ci p s]: the literal pattern [p] matches somewhere in [s],
    ignoring case ([re.search] with an unanchored literal pattern). *)
Fixpoint search_ci (p s : string) : bool :=
  match_ci p s ||
  match s with
  | EmptyString => false
  | String _ s' => search_ci p s'
  end.

(** [re.search(reUnsafeProtocol, url)] where
    [reUnsafeProtocol = re.compile(r'^javascript:|vbscript:|file:|data:',
    re.IGNORECASE)]: alternation binds weaker than [^], so the anchor
    belongs to the first alternative only. *)
Definition reUnsafeProtocol (url : string) : bool :=
  match_ci "javascript:" url
  || search_ci "vbscript:" url
  || search_ci "file:" url
  || search_ci "data:" url.

(** [re.search(reSafeDataProtocol, url)] where [reSafeDataProtocol =
    re.compile(r'^data:image\/(?:png|gif|jpeg|webp)', re.IGNORECASE)]. *)
Definition reSafeDataProtocol (url : string) : bool :=
  match_ci "data:image/png" url
  || match_ci "data:image/gif" url
  || match_ci "data:image/jpeg" url
  || match_ci "data:image/webp" url.

Definition potentially_unsafe (url : string) : bool :=
  reUnsafeProtocol url && negb (reSafeDataProtocol url).

(** The safety filter as the specification words it: every scheme of the
    deny list is matched at the start of the URL. *)
Definition is_unsafe_spec (url : string) : bool :=
  (match_ci "javascript:" url
   || match_ci "vbscript:" url
   || match_ci "file:" url
   || match_ci "data:" url)
  && negb (reSafeDataProtocol url).

(** ['>' in s]. *)
Fixpoint has_gt (s : string) : bool :=
  match s with
  | EmptyString => false
  | String c s' => Ascii.eqb c ">" || has_gt s'
  end.

(** [re.sub(reHtmlTag, '', s)] where [reHtmlTag = re.compile(r'\<[^>]*\>')].
    The engine scans left to right; at a ['<'] that is followed by a ['>']
    a match starts and runs through the first ['>'] ([skipping = true]
    inside a match); every other character is copied. *)
Fixpoint sub_reHtmlTag_from (skipping : bool) (s : string) : string :=
  match s with
  | EmptyString => EmptyString
  | String c s' =>
      if skipping then
        sub_reHtmlTag_from (negb (Ascii.eqb c ">")) s'
      else if Ascii.eqb c "<" && has_gt s' then
        sub_reHtmlTag_from true s'
      else String c (sub_reHtmlTag_from false s')
  end.

Definition sub_reHtmlTag (s : string) : string := sub_reHtmlTag_from false s.

(** [s] has a substring of the shape [<...>]: a ['<'] with a ['>'] after it. *)
Fixpoint has_tag (s : string) : bool :=
  match s with
  | EmptyString => false
  | String c s' => (Ascii.eqb c "<" && has_gt s') || has_tag s'
  end.

(** [\s] in a [str] pattern: the characters for which [str.isspace] holds,
    among the code points below 256 the tab, line feed, vertical tab, form
    feed and carriage return (9 to 13), the four separators (28 to 31), the
    space (32), the next-line control (133) and the no-break space (160). *)
Definition is_space (c : ascii) : bool :=
  let n := N_of_ascii c in
  ((9 <=? n) && (n <=? 13) || (28 <=? n) && (n <=? 32)
   || (n =? 133) || (n =? 160))%N.

(** [re.split(r'\s+', s)]: [s] cut at every maximal run of white space.
    [cur] is the piece being read, reversed; [in_sep] tells that the last
    character read was white space. *)
Fixpoint rev_string (acc s : string) : string :=
  match s with
  | EmptyString => acc
  | String c s' => rev_string (String c acc) s'
  end.

Fixpoint split_ws_from (cur : string) (in_sep : bool) (s : string) : list string :=
  match s with
  | EmptyString => [rev_string EmptyString cur]
  | String c s' =>
      if is_space c then
        if in_sep then split_ws_from cur true s'
        else rev_string EmptyString cur :: split_ws_from EmptyString true s'
      else split_ws_from (String c cur) false s'
  end.

Definition split_ws (s : string) : list string := split_ws_from EmptyString false s.

(** ** The tag builder *)

(** The one-character string holding a double quote. *)
Definition dq : string := String "034"%char EmptyString.

(** [' {0}="{1}"'.format(attr[0], attr[1])] *)
Definition format_attr (attr : string * string) : string :=
  " " +:+ attr.1 +:+ "=" +:+ dq +:+ attr.2 +:+ dq.

Definition tag (name : string) (attrs : list (string * string)) (selfclosing : bool) : string :=
  let result := "<" +:+ name in
  let result := fold_left (fun r attr => r +:+ format_attr attr) attrs result in
  let result := if selfclosing then result +:+ " /" else result in
  result +:+ ">".

(** ** Python values and dictionaries *)

(** The values an option or a [list_data] entry can hold. *)
Inductive pyval : Type :=
  | PyNone
  | PyBool (b : bool)
  | PyInt (n : Z)
  | PyStr (s : string).

(** Truth value of a Python object, as [if v:] tests it. *)
Definition truthy (v : pyval) : bool :=
  match v with
  | PyNone => false
  | PyBool b => b
  | PyInt n => negb (n =? 0)
  | PyStr s => negb (String.eqb s "")
  end.

(** Truth value of a string attribute that may be [None]. *)
Definition truthy_str (o : option string) : bool :=
  match o with
  | Some s => negb (String.eqb s "")
  | None => false
  end.

(** [d.get(k)] *)
Definition dict_get (d : gmap string pyval) (k : string) : pyval :=
  default PyNone (d !! k).

(** [a == b]; [bool] is a subclass of [int], so [True == 1]. *)
Definition py_eq (a b : pyval) : bool :=
  match a, b with
  | PyNone, PyNone => true
  | PyBool x, PyBool y => Bool.eqb x y
  | PyBool x, PyInt y | PyInt y, PyBool x => (if x then 1 else 0) =? y
  | PyInt x, PyInt y => x =? y
  | PyStr x, PyStr y => String.eqb x y
  | _, _ => false
  end.

(** [str(v)] *)
Definition py_str (v : pyval) : string :=
  match v with
  | PyNone => "None"
  | PyBool b => if b then "True" else "False"
  | PyInt n => pretty n
  | PyStr s => s
  end.

(** ** Nodes and events *)

(** Modelled from the spec: the class [Node] (CommonMark/node.py is not part
    of the sources).  A node carries its type tag [t], literal text, a
    destination and an optional title, an optional info string, a heading
    level, the dictionary [list_data], optional [on_enter] and [on_exit]
    literals, an optional source position [[sl, sc], [el, ec]] and a
    reference to its parent. *)
#[warnings="-register-all"]
Inductive Node : Type := mkNode {
  t : string;
  literal : string;
  destination : string;
  title : option string;
  info : option string;
  level : Z;
  list_data : gmap string pyval;
  on_enter : option string;
  on_exit : option string;
  sourcepos : option ((Z * Z) * (Z * Z));
  parent : option Node
}.

(** What [walker.nxt()] returns: [{'entering': ..., 'node': ...}]. *)
Record Event : Type := mkEvent {
  entering : bool;
  node : Node
}.

(** ** The renderer: state, exceptions, monad *)

(** The attributes [__init__] sets on the instance. *)
Record HtmlRenderer : Type := mkHtmlRenderer {
  softbreak : string;
  options : gmap string pyval
}.

(** The attributes [renderNodes] sets on the instance and the handlers
    update. *)
Record State : Type := mkState {
  buf : string;
  last_out : string;
  disable_tags : Z
}.

Inductive exn : Type :=
  | ValueError (msg : string)
  | AttributeError (msg : string)
  | TypeError
  | KeyError (key : string).

Inductive result (A : Type) : Type :=
  | Ok (a : A)
  | Raise (e : exn).
Arguments Ok {A} a.
Arguments Raise {A} e.

(** A computation reads and updates the state and returns or raises. *)
Definition M (A : Type) : Type := State -> result A * State.

#[global] Instance M_ret : MRet M := fun A a st => (Ok a, st).
#[global] Instance M_bind : MBind M := fun A B f m st =>
  match m st with
  | (Ok a, st') => f a st'
  | (Raise e, st') => (Raise e, st')
  end.

Definition raise {A : Type} (e : exn) : M A := fun st => (Raise e, st).
Definition get_disable_tags : M Z := fun st => (Ok (disable_tags st), st).
Definition set_disable_tags (d : Z) : M unit := fun st =>
  (Ok tt, {| buf := buf st; last_out := last_out st; disable_tags := d |}).
Definition pass : M unit := mret tt.

(** The one-character string holding a line feed. *)
Definition nl : string := String "010"%char EmptyString.

(** [HtmlRenderer.__init__] *)
Definition HtmlRenderer_init (options : gmap string pyval) : result HtmlRenderer :=
  Ok {| softbreak := nl; options := options |}.

(** ** The output buffer *)

Definition out (s : string) : M unit := fun st =>
  (Ok tt,
   {| buf := if 0 <? disable_tags st then buf st +:+ sub_reHtmlTag s
             else buf st +:+ s;
      last_out := s;
      disable_tags := disable_tags st |}).

Definition cr : M unit := fun st =>
  if negb (String.eqb (last_out st) nl) then
    (Ok tt, {| buf := buf st +:+ nl; last_out := nl; disable_tags := disable_tags st |})
  else (Ok tt, st).

(** ** The per-node-type handlers *)

Definition attr_list : Type := list (string * string).

(** The names the handlers look up in [self.options]. *)
Definition safe (self : HtmlRenderer) : bool := truthy (dict_get (options self) "safe").

Section Handlers.

(** [CommonMark.common.escape_xml] is imported from a module that is not
    part of the sources: the handlers are parametric in it. *)
Variable escape_xml : string -> bool -> string.

Variable self : HtmlRenderer.

Definition renderText (ev : Event) (node : Node) (attrs : attr_list) (entering : bool) : M unit :=
  out (escape_xml (literal node) false).

Definition renderSoftbreak (ev : Event) (node : Node) (attrs : attr_list) (entering : bool) : M unit :=
  out (softbreak self).

Definition renderHardbreak (ev : Event) (node : Node) (attrs : attr_list) (entering : bool) : M unit :=
  out (tag "br" [] true) ;;
  cr.

Definition renderEmph (ev : Event) (node : Node) (attrs : attr_list) (entering : bool) : M unit :=
  out (tag (if entering then "em" else "/em") [] false).

Definition renderStrong (ev : Event) (node : Node) (attrs : attr_list) (entering : bool) : M unit :=
  out (tag (if entering then "strong" else "/strong") [] false).

Definition renderHtmlInline (ev : Event) (node : Node) (attrs : attr_list) (entering : bool) : M unit :=
  if safe self then out "<!-- raw HTML omitted -->"
  else out (literal node).

Definition renderCustomInline (ev : Event) (node : Node) (attrs : attr_list) (entering : bool) : M unit :=
  if entering && truthy_str (on_enter node) then out (default "" (on_enter node))
  else if negb entering && truthy_str (on_exit node) then out (default "" (on_exit node))
  else pass.

Definition renderLink (ev : Event) (node : Node) (attrs : attr_list) (entering : bool) : M unit :=
  if entering then
    let attrs :=
      if negb (safe self && potentially_unsafe (destination node))
      then attrs ++ [("href", escape_xml (destination node) true)]
      else attrs in
    let attrs :=
      if truthy_str (title node)
      then attrs ++ [("title", escape_xml (default "" (title node)) true)]
      else attrs in
    out (tag "a" attrs false)
  else out (tag "/a" [] false).

Definition renderImage (ev : Event) (node : Node) (attrs : attr_list) (entering : bool) : M unit :=
  if entering then
    d ← get_disable_tags;
    (if d =? 0 then
       if safe self && potentially_unsafe (destination node)
       then out ("<img src=" +:+ dq +:+ dq +:+ " alt=" +:+ dq)
       else out ("<img src=" +:+ dq +:+ escape_xml (destination node) true
                 +:+ dq +:+ " alt=" +:+ dq)
     else pass) ;;
    d ← get_disable_tags;
    set_disable_tags (d + 1)
  else
    d ← get_disable_tags;
    set_disable_tags (d - 1) ;;
    d ← get_disable_tags;
    if d =? 0 then
      (if truthy_str (title node)
       then out (dq +:+ " title=" +:+ dq +:+ escape_xml (default "" (title node)) true)
       else pass) ;;
      out (dq +:+ " />")
    else pass.

Definition renderCode (ev : Event) (node : Node) (attrs : attr_list) (entering : bool) : M unit :=
  out (tag "code" [] false +:+ escape_xml (literal node) false +:+ tag "/code" [] false).

Definition renderDocument (ev : Event) (node : Node) (attrs : attr_list) (entering : bool) : M unit :=
  pass.

(** [grandparent is not None and grandparent.t == 'List' and
    grandparent.list_data.get('tight')] *)
Definition in_tight_list (grandparent : option Node) : bool :=
  match grandparent with
  | None => false
  | Some g => String.eqb (t g) "List" && truthy (dict_get (list_data g) "tight")
  end.

Definition renderParagraph (ev : Event) (node : Node) (attrs : attr_list) (entering : bool) : M unit :=
  match parent node with
  | None => raise (AttributeError "'NoneType' object has no attribute 'parent'")
  | Some p =>
      let grandparent := parent p in
      if in_tight_list grandparent then pass
      else if entering then
        cr ;;
        out (tag "p" attrs false)
      else
        out (tag "/p" [] false) ;;
        cr
  end.

Definition renderBlockQuote (ev : Event) (node : Node) (attrs : attr_list) (entering : bool) : M unit :=
  if entering then
    cr ;;
    out (tag "blockquote" attrs false) ;;
    cr
  else
    cr ;;
    out (tag "/blockquote" [] false) ;;
    cr.

Definition renderItem (ev : Event) (node : Node) (attrs : attr_list) (entering : bool) : M unit :=
  if entering then out (tag "li" attrs false)
  else
    out (tag "/li" [] false) ;;
    cr.

Definition renderList (ev : Event) (node : Node) (attrs : attr_list) (entering : bool) : M unit :=
  match list_data node !! "type" with
  | None => raise (KeyError "type")
  | Some ty =>
      let tagname := if py_eq ty (PyStr "Bullet") then "ul" else "ol" in
      if entering then
        let start := default PyNone (list_data node !! "start") in
        let attrs :=
          if negb (py_eq start PyNone) && negb (py_eq start (PyInt 1))
          then attrs ++ [("start", py_str start)]
          else attrs in
        cr ;;
        out (tag tagname attrs false) ;;
        cr
      else
        cr ;;
        out (tag ("/" +:+ tagname) [] false) ;;
        cr
  end.

Definition renderHeading (ev : Event) (node : Node) (attrs : attr_list) (entering : bool) : M unit :=
  let tagname := "h" +:+ pretty (level node) in
  if entering then
    cr ;;
    out (tag tagname attrs false)
  else
    out (tag ("/" +:+ tagname) [] false) ;;
    cr.

Definition renderCodeBlock (ev : Event) (node : Node) (attrs : attr_list) (entering : bool) : M unit :=
  let info_words :=
    if truthy_str (info node) then split_ws (default "" (info node)) else [] in
  let attrs :=
    match info_words with
    | w :: _ =>
        if (0 <? String.length w)%nat
        then attrs ++ [("class", "language-" +:+ escape_xml w true)]
        else attrs
    | [] => attrs
    end in
  cr ;;
  out (tag "pre" [] false +:+ tag "code" attrs false) ;;
  out (escape_xml (literal node) false) ;;
  out (tag "/code" [] false +:+ tag "/pre" [] false) ;;
  cr.

Definition renderHtmlBlock (ev : Event) (node : Node) (attrs : attr_list) (entering : bool) : M unit :=
  (if safe self then out "<!-- raw HTML omitted -->"
   else out (literal node)) ;;
  cr.

Definition renderCustomBlock (ev : Event) (node : Node) (attrs : attr_list) (entering : bool) : M unit :=
  cr ;;
  (if entering && truthy_str (on_enter node) then out (default "" (on_enter node))
   else if negb entering && truthy_str (on_exit node) then out (default "" (on_exit node))
   else pass) ;;
  cr.

Definition renderThematicBreak (ev : Event) (node : Node) (attrs : attr_list) (entering : bool) : M unit :=
  cr ;;
  out (tag "hr" attrs true) ;;
  cr.

End Handlers.

(** ** The dispatcher and the traversal driver *)

Definition handler : Type := Event -> Node -> attr_list -> bool -> M unit.

Definition get_buf : M string := fun st => (Ok (buf st), st).
Definition set_state (st : State) : M unit := fun _ => (Ok tt, st).

Section Driver.

Variable escape_xml : string -> bool -> string.

Variable self : HtmlRenderer.

(** [renderNodes] (and its alias [render]) takes one argument besides
    [self]: called as a handler, with four, it raises [TypeError].  The
    text of that exception is the interpreter's and changes from one
    version of Python to the next: it is not part of the model. *)
Definition renderNodes_as_handler : handler := fun _ _ _ _ =>
  raise TypeError.

(** The attributes of the instance whose name starts with [render]: what
    [getattr(self, 'render' + node.t)] can find. *)
Definition render_attributes : gmap string handler :=
  list_to_map
    [ ("renderNodes", renderNodes_as_handler);
      ("renderText", renderText escape_xml);
      ("renderSoftbreak", renderSoftbreak self);
      ("renderHardbreak", renderHardbreak);
      ("renderEmph", renderEmph);
      ("renderStrong", renderStrong);
      ("renderHtmlInline", renderHtmlInline self);
      ("renderCustomInline", renderCustomInline);
      ("renderLink", renderLink escape_xml self);
      ("renderImage", renderImage escape_xml self);
      ("renderCode", renderCode escape_xml);
      ("renderDocument", renderDocument);
      ("renderParagraph", renderParagraph);
      ("renderBlockQuote", renderBlockQuote);
      ("renderItem", renderItem);
      ("renderList", renderList);
      ("renderHeading", renderHeading);
      ("renderCodeBlock", renderCodeBlock escape_xml);
      ("renderHtmlBlock", renderHtmlBlock self);
      ("renderCustomBlock", renderCustomBlock);
      ("renderThematicBreak", renderThematicBreak);
      ("render", renderNodes_as_handler) ].

(** Lines 64-71: the attribute list of one event.  A Python list has no
    method [push]: the attribute lookup [attrs.push] raises before its
    argument is built. *)
Definition sourcepos_attrs (node : Node) : M attr_list :=
  let attrs := [] in
  if truthy (dict_get (options self) "sourcepos") then
    match sourcepos node with
    | Some pos => raise (AttributeError "'list' object has no attribute 'push'")
    | None => mret attrs
    end
  else mret attrs.

(** Lines 73-76: the handler of a node type. *)
Definition lookup_render_fn (node : Node) : M handler :=
  match render_attributes !! ("render" +:+ t node) with
  | Some render_fn => mret render_fn
  | None => raise (ValueError ("Unknown node type " +:+ t node))
  end.

(** The body of the [while] loop of [renderNodes], for one event. *)
Definition render_event (event : Event) : M unit :=
  let entering := entering event in
  let node := node event in
  attrs ← sourcepos_attrs node;
  render_fn ← lookup_render_fn node;
  render_fn event node attrs entering.

(** The [while] loop over the events the walker yields. *)
Fixpoint render_events (events : list Event) : M unit :=
  match events with
  | [] => mret tt
  | event :: events' =>
      render_event event ;;
      render_events events'
  end.

(** [renderNodes(block)], [events] being what [block.walker()] yields. *)
Definition renderNodes (events : list Event) : M string :=
  set_state {| buf := ""; last_out := nl; disable_tags := 0 |} ;;
  render_events events ;;
  get_buf.

End Driver.

(** The state of an instance on which [renderNodes] has not run yet plays
    no role: [renderNodes] overwrites it. *)
Definition fresh : State := {| buf := ""; last_out := nl; disable_tags := 0 |}.

(** [renderer.render(block)]: the value returned or the exception raised,
    and the buffer left on the instance. *)
Definition render (escape_xml : string -> bool -> string) (self : HtmlRenderer)
    (events : list Event) : result string * string :=
  let r := renderNodes escape_xml self events fresh in
  (r.1, buf r.2).

(** An ampersand followed by [s] starts one of the four entities that the
    escaping writes. *)
Definition starts_entity (s : string) : bool :=
  String.prefix "amp;" s || String.prefix "lt;" s
  || String.prefix "gt;" s || String.prefix "quot;" s.

(** Modelled from the spec: [CommonMark.common.escape_xml] (not part of the
    sources), described as mapping the ampersand, the angle brackets and the
    double quote to entities, where text content is escaped without the
    quotes (second argument [False]) and attribute values are escaped in
    full (second argument [True]), and where a text that is escaped
    already is not escaped twice: the ampersand of an entity stays. *)
Fixpoint escape_xml_spec (s : string) (quotes : bool) : string :=
  match s with
  | EmptyString => EmptyString
  | String c s' =>
      (if Ascii.eqb c "&" then (if starts_entity s' then "&" else "&amp;")
       else if Ascii.eqb c "<" then "&lt;"
       else if Ascii.eqb c ">" then "&gt;"
       else if quotes && Ascii.eqb c "034" then "&quot;"
       else String c EmptyString) +:+ escape_xml_spec s' quotes
  end.

(** The events of an Image node, and the sequences in which each
    Image-exit is matched by a preceding Image-enter: the running count of
    enters minus exits never drops below zero. *)
Definition is_image (ev : Event) : bool := String.eqb (t (node ev)) "Image".

Definition image_delta (ev : Event) : Z :=
  if is_image ev then (if entering ev then 1 else -1) else 0.

Definition image_enters (evs : list Event) : Z :=
  Z.of_nat (length (filter (fun ev => is_image ev && entering ev) evs)).

Definition image_exits (evs : list Event) : Z :=
  Z.of_nat (length (filter (fun ev => is_image ev && negb (entering ev)) evs)).

Fixpoint well_formed_from (d : Z) (evs : list Event) : bool :=
  match evs with
  | [] => true
  | ev :: evs' =>
      (0 <=? d + image_delta ev) && well_formed_from (d + image_delta ev) evs'
  end.

Definition well_formed (evs : list Event) : bool := well_formed_from 0 evs.

(** Final state of a computation. *)
Definition exec {A : Type} (m : M A) (st : State) : State := (m st).2.

(** A computation that leaves the suppression depth alone, whether it
    returns or raises. *)
Definition keeps_depth {A : Type} (m : M A) : Prop :=
  forall st r st', m st = (r, st') -> disable_tags st' = disable_tags st.

(** ** Notions used to state properties of the code *)

(** [s] with every upper-case ASCII letter folded to lower case. *)
Fixpoint lower_string (s : string) : string :=
  match s with
  | EmptyString => EmptyString
  | String c s' => String (lower c) (lower_string s')
  end.

(** [c in s]. *)
Fixpoint contains (c : ascii) (s : string) : bool :=
  match s with
  | EmptyString => false
  | String c' s' => Ascii.eqb c' c || contains c s'
  end.

(** The attributes of a tag, each as [ name="value"], in the order of the
    list. *)
Fixpoint attrs_text (attrs : list (string * string)) : string :=
  match attrs with
  | [] => EmptyString
  | attr :: attrs' => format_attr attr +:+ attrs_text attrs'
  end.

(** No name and no value of [attrs] holds a ['>']. *)
Definition no_gt_attrs (attrs : list (string * string)) : bool :=
  forallb (fun attr => negb (has_gt attr.1) && negb (has_gt attr.2)) attrs.

(** The characters of [s] before its first white space. *)
Fixpoint first_token (s : string) : string :=
  match s with
  | EmptyString => EmptyString
  | String c s' => if is_space c then EmptyString else String c (first_token s')
  end.

(** A computation that keeps the property [P] of the state, whether it
    returns or raises. *)
Definition preserves {A : Type} (P : State -> Prop) (m : M A) : Prop :=
  forall st r st', P st -> m st = (r, st') -> P st'.

(** A property of the state that the three operations writing the state
    keep. *)
Definition stable (P : State -> Prop) : Prop :=
  (forall s, preserves P (out s))
  /\ preserves P cr
  /\ (forall d, preserves P (set_disable_tags d)).

(** The buffer is empty or ends with a newline. *)
Definition at_line_start (st : State) : Prop :=
  buf st = "" \/ exists b, buf st = b +:+ nl.

(** The text that the events of Text, Emph and Strong nodes leave in the
    buffer while tags are disabled: the escaped literal of each Text node,
    with its tags removed. *)
Fixpoint alt_text (escape_xml : string -> bool -> string) (evs : list Event) : string :=
  match evs with
  | [] => EmptyString
  | ev :: evs' =>
      (if String.eqb (t (node ev)) "Text"
       then sub_reHtmlTag (escape_xml (literal (node ev)) false)
       else EmptyString) +:+ alt_text escape_xml evs'
  end.

(** An event of a Text, Emph or Strong node that carries no source
    position. *)
Definition is_plain_inline (ev : Event) : bool :=
  (String.eqb (t (node ev)) "Text" || String.eqb (t (node ev)) "Emph"
   || String.eqb (t (node ev)) "Strong")
  && match sourcepos (node ev) with None => true | Some _ => false end.

(** ** Sample trees

    Nodes and events used to run the renderer on concrete input. *)

Definition enter (n : Node) : Event := {| entering := true; node := n |}.
Definition leave (n : Node) : Event := {| entering := false; node := n |}.

(** A renderer built with no option. *)
Definition plain_renderer : HtmlRenderer := {| softbreak := nl; options := ∅ |}.

(** Node of type [ty] with the literal [s]. *)
Definition literal_node (ty s : string) (parent : option Node) : Node :=
  {| t := ty; literal := s; destination := ""; title := None; info := None;
     level := 0; list_data := ∅; on_enter := None; on_exit := None;
     sourcepos := None; parent := parent |}.

(** [Text] node with the literal [s]. *)
Definition text_node (s : string) (parent : option Node) : Node :=
  literal_node "Text" s parent.

(** [Image] node with a destination and a title. *)
Definition image_node (dest : string) (title : option string) (parent : option Node) : Node :=
  {| t := "Image"; literal := ""; destination := dest; title := title; info := None;
     level := 0; list_data := ∅; on_enter := None; on_exit := None;
     sourcepos := None; parent := parent |}.

(** A node of type [ty] with a parent and nothing else. *)
Definition block_node (ty : string) (list_data : gmap string pyval)
    (sourcepos : option ((Z * Z) * (Z * Z))) (parent : option Node) : Node :=
  {| t := ty; literal := ""; destination := ""; title := None; info := None;
     level := 0; list_data := list_data; on_enter := None; on_exit := None;
     sourcepos := sourcepos; parent := parent |}.

(** [CodeBlock] node with an info string and a literal. *)
Definition code_block_node (info : option string) (literal : string) : Node :=
  {| t := "CodeBlock"; literal := literal; destination := ""; title := None;
     info := info; level := 0; list_data := ∅; on_enter := None; on_exit := None;
     sourcepos := None; parent := None |}.

(** A tight bullet list, an item in it and a paragraph in the item. *)
Definition tight_list : Node :=
  block_node "List" (<["tight" := PyBool true]> {["type" := PyStr "Bullet"]}) None
    (Some (block_node "Document" ∅ None None)).
Definition tight_item : Node := block_node "Item" ∅ None (Some tight_list).
Definition tight_paragraph : Node := block_node "Paragraph" ∅ None (Some tight_item).

(** A document that carries a source position, and a renderer asked to
    emit source positions. *)
Definition document_with_sourcepos : Node :=
  block_node "Document" ∅ (Some ((1, 1), (1, 5))) None.
Definition sourcepos_renderer : HtmlRenderer :=
  {| softbreak := nl; options := {["sourcepos" := PyBool true]} |}.

(** An inline of raw HTML, and a renderer whose [safe] option holds a
    string instead of a boolean. *)
Definition html_inline : Node := literal_node "HtmlInline" "<b>" None.
Definition safe_yes_options : gmap string pyval := {["safe" := PyStr "yes"]}.

(** The state after the entry of an image with destination [u], rendered
    from the initial state. *)
Definition inside_image : State :=
  {| buf := "<img src=" +:+ dq +:+ "u" +:+ dq +:+ " alt=" +:+ dq;
     last_out := "<img src=" +:+ dq +:+ "u" +:+ dq +:+ " alt=" +:+ dq;
     disable_tags := 1 |}.

(** A renderer in safe mode. *)
Definition safe_renderer : HtmlRenderer :=
  {| softbreak := nl; options := {["safe" := PyBool true]} |}.

(** * Properties *)

(** ** The monad *)

Lemma bind_Ok {A B : Type} (m : M A) (f : A -> M B) st a st' :
  m st = (Ok a, st') -> (m ≫= f) st = f a st'.
Proof. intros H. unfold mbind, M_bind. now rewrite H. Qed.

Lemma bind_Raise {A B : Type} (m : M A) (f : A -> M B) st e st' :
  m st = (Raise e, st') -> (m ≫= f) st = (Raise e, st').
Proof. intros H. unfold mbind, M_bind. now rewrite H. Qed.

Lemma keeps_depth_ret {A : Type} (a : A) : keeps_depth (mret a).
Proof. intros st r st' H. unfold mret, M_ret in H. now inversion H. Qed.

Lemma keeps_depth_raise {A : Type} (e : exn) : keeps_depth (@raise A e).
Proof. intros st r st' H. unfold raise in H. now inversion H. Qed.

Lemma keeps_depth_bind {A B : Type} (m : M A) (f : A -> M B) :
  keeps_depth m -> (forall a, keeps_depth (f a)) -> keeps_depth (m ≫= f).
Proof.
  intros Hm Hf st r st' H. unfold mbind, M_bind in H.
  destruct (m st) as [[a|e] st1] eqn:E.
  - rewrite (Hf a _ _ _ H). eapply Hm; eauto.
  - inversion H; subst. eapply Hm; eauto.
Qed.

Lemma keeps_depth_out s : keeps_depth (out s).
Proof. intros st r st' H. unfold out in H. now inversion H. Qed.

Lemma keeps_depth_cr : keeps_depth cr.
Proof.
  intros st r st' H. unfold cr in H.
  destruct (negb (String.eqb (last_out st) nl)); now inversion H.
Qed.

Lemma keeps_depth_pass : keeps_depth pass.
Proof. apply keeps_depth_ret. Qed.

Create HintDb depth.
#[export] Hint Resolve keeps_depth_ret keeps_depth_raise keeps_depth_out
  keeps_depth_cr keeps_depth_pass : depth.

(** Goals [keeps_depth h] for a handler [h] built from [out], [cr], [pass]
    and [raise]. *)
Ltac keeps_depth_tac :=
  repeat first
    [ progress auto with depth
    | apply keeps_depth_bind; [ | intros ? ]
    | match goal with
      | |- keeps_depth (if ?b then _ else _) => destruct b
      | |- keeps_depth (match ?o with Some _ => _ | None => _ end) => destruct o
      | |- keeps_depth (match ?l with [] => _ | _ :: _ => _ end) => destruct l
      end ].

Section HandlerDepth.

Variable escape_xml : string -> bool -> string.
Variable self : HtmlRenderer.
Variables (ev : Event) (n : Node) (attrs : attr_list) (e : bool).

Lemma keeps_depth_renderText : keeps_depth (renderText escape_xml ev n attrs e).
Proof. unfold renderText. keeps_depth_tac. Qed.
Lemma keeps_depth_renderSoftbreak : keeps_depth (renderSoftbreak self ev n attrs e).
Proof. unfold renderSoftbreak. keeps_depth_tac. Qed.
Lemma keeps_depth_renderHardbreak : keeps_depth (renderHardbreak ev n attrs e).
Proof. unfold renderHardbreak. keeps_depth_tac. Qed.
Lemma keeps_depth_renderEmph : keeps_depth (renderEmph ev n attrs e).
Proof. unfold renderEmph. keeps_depth_tac. Qed.
Lemma keeps_depth_renderStrong : keeps_depth (renderStrong ev n attrs e).
Proof. unfold renderStrong. keeps_depth_tac. Qed.
Lemma keeps_depth_renderHtmlInline : keeps_depth (renderHtmlInline self ev n attrs e).
Proof. unfold renderHtmlInline. keeps_depth_tac. Qed.
Lemma keeps_depth_renderCustomInline : keeps_depth (renderCustomInline ev n attrs e).
Proof. unfold renderCustomInline. keeps_depth_tac. Qed.
Lemma keeps_depth_renderLink : keeps_depth (renderLink escape_xml self ev n attrs e).
Proof. unfold renderLink. keeps_depth_tac. Qed.
Lemma keeps_depth_renderCode : keeps_depth (renderCode escape_xml ev n attrs e).
Proof. unfold renderCode. keeps_depth_tac. Qed.
Lemma keeps_depth_renderDocument : keeps_depth (renderDocument ev n attrs e).
Proof. unfold renderDocument. keeps_depth_tac. Qed.
Lemma keeps_depth_renderParagraph : keeps_depth (renderParagraph ev n attrs e).
Proof. unfold renderParagraph. keeps_depth_tac. Qed.
Lemma keeps_depth_renderBlockQuote : keeps_depth (renderBlockQuote ev n attrs e).
Proof. unfold renderBlockQuote. keeps_depth_tac. Qed.
Lemma keeps_depth_renderItem : keeps_depth (renderItem ev n attrs e).
Proof. unfold renderItem. keeps_depth_tac. Qed.
Lemma keeps_depth_renderList : keeps_depth (renderList ev n attrs e).
Proof. unfold renderList. keeps_depth_tac. Qed.
Lemma keeps_depth_renderHeading : keeps_depth (renderHeading ev n attrs e).
Proof. unfold renderHeading. keeps_depth_tac. Qed.
Lemma keeps_depth_renderCodeBlock : keeps_depth (renderCodeBlock escape_xml ev n attrs e).
Proof. unfold renderCodeBlock. keeps_depth_tac. Qed.
Lemma keeps_depth_renderHtmlBlock : keeps_depth (renderHtmlBlock self ev n attrs e).
Proof. unfold renderHtmlBlock. keeps_depth_tac. Qed.
Lemma keeps_depth_renderCustomBlock : keeps_depth (renderCustomBlock ev n attrs e).
Proof. unfold renderCustomBlock. keeps_depth_tac. Qed.
Lemma keeps_depth_renderThematicBreak : keeps_depth (renderThematicBreak ev n attrs e).
Proof. unfold renderThematicBreak. keeps_depth_tac. Qed.
Lemma keeps_depth_renderNodes_as_handler : keeps_depth (renderNodes_as_handler ev n attrs e).
Proof. unfold renderNodes_as_handler. keeps_depth_tac. Qed.

End HandlerDepth.

(** ** The suppression depth along a traversal *)

Section Depth.

Variable escape_xml : string -> bool -> string.
Variable self : HtmlRenderer.

(** [renderImage] never raises; entering adds one to the depth and leaving
    takes one off. *)
Lemma renderImage_depth ev n attrs e st :
  exists st', renderImage escape_xml self ev n attrs e st = (Ok tt, st')
    /\ disable_tags st' = disable_tags st + (if e then 1 else -1).
Proof.
  unfold renderImage, mbind, M_bind, get_disable_tags, set_disable_tags, pass,
    mret, M_ret, out.
  destruct e; simpl.
  - destruct (disable_tags st =? 0); simpl;
      [ destruct (safe self && potentially_unsafe (destination n)) | ];
      simpl; eexists; split; reflexivity.
  - destruct (disable_tags st - 1 =? 0); simpl;
      [ destruct (truthy_str (title n)) | ];
      simpl; eexists; split; reflexivity.
Qed.

(** What [getattr(self, 'render' + node.t)] finds: [renderImage] for an
    Image node and a handler that keeps the depth for any other type. *)
Lemma lookup_render_cases (n : Node) (f : handler) :
  render_attributes escape_xml self !! ("render" +:+ t n) = Some f ->
  (t n = "Image" /\ f = renderImage escape_xml self)
  \/ (t n <> "Image" /\ forall ev n' attrs e, keeps_depth (f ev n' attrs e)).
Proof.
  intros H. unfold render_attributes in H.
  apply elem_of_list_to_map_2 in H.
  repeat (apply elem_of_cons in H as [H|H];
    [ injection H as H1 H2; cbv [String.append] in H1; simplify_eq;
      first [ left; split; [assumption | reflexivity]
            | right; split; [ rewrite H1; discriminate | intros ev n' attrs e ] ] | ]).
  all: try (apply elem_of_nil in H; contradiction).
  - apply keeps_depth_renderNodes_as_handler.
  - apply keeps_depth_renderText.
  - apply keeps_depth_renderSoftbreak.
  - apply keeps_depth_renderHardbreak.
  - apply keeps_depth_renderEmph.
  - apply keeps_depth_renderStrong.
  - apply keeps_depth_renderHtmlInline.
  - apply keeps_depth_renderCustomInline.
  - apply keeps_depth_renderLink.
  - apply keeps_depth_renderCode.
  - apply keeps_depth_renderDocument.
  - apply keeps_depth_renderParagraph.
  - apply keeps_depth_renderBlockQuote.
  - apply keeps_depth_renderItem.
  - apply keeps_depth_renderList.
  - apply keeps_depth_renderHeading.
  - apply keeps_depth_renderCodeBlock.
  - apply keeps_depth_renderHtmlBlock.
  - apply keeps_depth_renderCustomBlock.
  - apply keeps_depth_renderThematicBreak.
  - apply keeps_depth_renderNodes_as_handler.
Qed.

Lemma keeps_depth_sourcepos_attrs n : keeps_depth (sourcepos_attrs self n).
Proof. unfold sourcepos_attrs. keeps_depth_tac. Qed.

Lemma keeps_depth_lookup_render_fn n : keeps_depth (lookup_render_fn escape_xml self n).
Proof. unfold lookup_render_fn. keeps_depth_tac. Qed.

(** One event: an Image-enter adds one, an Image-exit takes one off, any
    other event and any event that raises leaves the depth as it was. *)
Lemma render_event_depth ev st r st' :
  render_event escape_xml self ev st = (r, st') ->
  disable_tags st' = disable_tags st
    + match r with Ok _ => image_delta ev | Raise _ => 0 end.
Proof.
  unfold render_event. intros H.
  unfold mbind at 1, M_bind at 1 in H.
  destruct (sourcepos_attrs self (node ev) st) as [[attrs|x] st1] eqn:E1.
  2:{ inversion H; subst. rewrite (keeps_depth_sourcepos_attrs _ _ _ _ E1). lia. }
  rewrite <- (keeps_depth_sourcepos_attrs _ _ _ _ E1).
  unfold mbind, M_bind in H.
  destruct (lookup_render_fn escape_xml self (node ev) st1) as [[f|x] st2] eqn:E2.
  2:{ inversion H; subst. rewrite (keeps_depth_lookup_render_fn _ _ _ _ E2). lia. }
  rewrite <- (keeps_depth_lookup_render_fn _ _ _ _ E2).
  unfold lookup_render_fn in E2.
  destruct (render_attributes escape_xml self !! ("render" +:+ t (node ev)))
    as [g|] eqn:E3; [ | discriminate ].
  unfold mret, M_ret in E2. inversion E2; subst g st2. clear E2.
  destruct (lookup_render_cases _ _ E3) as [[Ht ->] | [Ht Hk]].
  - destruct (renderImage_depth ev (node ev) attrs (entering ev) st1)
      as (st3 & E & D).
    rewrite E in H. inversion H; subst.
    unfold image_delta, is_image. rewrite Ht. simpl. exact D.
  - rewrite (Hk _ _ _ _ _ _ _ H).
    unfold image_delta, is_image.
    destruct (String.eqb_spec (t (node ev)) "Image"); [ contradiction | ].
    destruct r; lia.
Qed.

Lemma image_delta_counts ev evs :
  image_enters (ev :: evs) - image_exits (ev :: evs)
  = image_delta ev + (image_enters evs - image_exits evs).
Proof.
  unfold image_enters, image_exits, image_delta.
  rewrite !filter_cons.
  destruct (is_image ev), (entering ev); simpl;
    repeat case_decide; simpl in *; try tauto; try lia.
Qed.

(** A traversal that returns: the depth has grown by the number of
    Image-enters minus the number of Image-exits. *)
Lemma render_events_depth evs : forall st st',
  render_events escape_xml self evs st = (Ok tt, st') ->
  disable_tags st' = disable_tags st + (image_enters evs - image_exits evs).
Proof.
  induction evs as [|ev evs IH]; intros st st' H.
  - simpl in H. unfold mret, M_ret in H. inversion H; subst.
    unfold image_enters, image_exits. simpl. lia.
  - simpl in H. unfold mbind, M_bind in H.
    destruct (render_event escape_xml self ev st) as [[[]|x] st1] eqn:E;
      [ | discriminate ].
    rewrite image_delta_counts, (IH _ _ H), (render_event_depth _ _ _ _ E). lia.
Qed.



Lemma well_formed_from_app evs1 : forall d evs2,
  well_formed_from d (evs1 ++ evs2) = true ->
  well_formed_from d evs1 = true
  /\ well_formed_from (d + (image_enters evs1 - image_exits evs1)) evs2 = true.
Proof.
  induction evs1 as [|ev evs1 IH]; intros d evs2 W.
  - simpl. split; [ reflexivity | ].
    unfold image_enters, image_exits. simpl.
    replace (d + (Z.of_nat 0 - Z.of_nat 0)) with d by lia. exact W.
  - simpl in W. apply andb_true_iff in W as [W1 W2].
    destruct (IH _ _ W2) as [A B]. simpl. rewrite W1, A. split; [ reflexivity | ].
    rewrite image_delta_counts.
    replace (d + (image_delta ev + (image_enters evs1 - image_exits evs1)))
      with (d + image_delta ev + (image_enters evs1 - image_exits evs1)) by lia.
    exact B.
Qed.

End Depth.

(** ** Stripping tags *)

Lemma has_gt_sub s : forall skipping,
  has_gt (sub_reHtmlTag_from skipping s) = true -> has_gt s = true.
Proof.
  induction s as [|c s IH]; intros skipping H; simpl in *; [ assumption | ].
  destruct skipping.
  - apply IH in H. rewrite H. apply orb_true_r.
  - destruct (Ascii.eqb c "<" && has_gt s) eqn:E.
    + apply IH in H. rewrite H. apply orb_true_r.
    + simpl in H. apply orb_true_iff in H as [H|H].
      * rewrite H. reflexivity.
      * apply IH in H. rewrite H. apply orb_true_r.
Qed.

(** What [re.sub(reHtmlTag, '', s)] returns has no ['<'] with a ['>']
    after it. *)
Lemma has_tag_sub s : forall skipping,
  has_tag (sub_reHtmlTag_from skipping s) = false.
Proof.
  induction s as [|c s IH]; intros skipping; simpl; [ reflexivity | ].
  destruct skipping; [ apply IH | ].
  destruct (Ascii.eqb c "<" && has_gt s) eqn:E; [ apply IH | ].
  simpl. rewrite IH, orb_false_r.
  destruct (Ascii.eqb c "<"); [ | reflexivity ].
  simpl in *.
  destruct (has_gt (sub_reHtmlTag_from false s)) eqn:G; [ | reflexivity ].
  apply has_gt_sub in G. congruence.
Qed.

Lemma append_cons c s1 s2 : String c s1 +:+ s2 = String c (s1 +:+ s2).
Proof. reflexivity. Qed.

Lemma has_gt_app m b : has_gt (m +:+ String ">" b) = true.
Proof.
  induction m as [|c m IH].
  - reflexivity.
  - rewrite (append_cons c m). cbn [has_gt]. rewrite IH. apply orb_true_r.
Qed.


(** A text without tag-shaped substring goes through unchanged. *)
Lemma sub_reHtmlTag_id s : has_tag s = false -> sub_reHtmlTag s = s.
Proof.
  unfold sub_reHtmlTag.
  induction s as [|c s IH]; simpl; intros H; [ reflexivity | ].
  apply orb_false_iff in H as [H1 H2].
  rewrite H1, (IH H2). reflexivity.
Qed.

(** ** The safety filter *)

Lemma match_ci_search_ci p s : match_ci p s = true -> search_ci p s = true.
Proof. intros H. destruct s; simpl; rewrite H; reflexivity. Qed.

(** Every URL the specification's filter rejects is rejected by the code. *)
Lemma is_unsafe_spec_potentially_unsafe url :
  is_unsafe_spec url = true -> potentially_unsafe url = true.
Proof.
  unfold is_unsafe_spec, potentially_unsafe, reUnsafeProtocol.
  intros H. apply andb_true_iff in H as [H1 H2]. rewrite H2, andb_true_r.
  repeat (apply orb_true_iff in H1 as [H1|H1]);
    [ rewrite H1; reflexivity
    | apply match_ci_search_ci in H1; rewrite H1 ..].
  - now rewrite orb_true_r.
  - now rewrite !orb_true_r.
  - now rewrite !orb_true_r.
Qed.

(** C1. The safety filter classifies as unsafe a URL that holds a denied
    scheme in a non-leading position: [re.search] looks for [vbscript:],
    [file:] and [data:] anywhere in the URL, the anchor of
    [reUnsafeProtocol] standing in its first alternative only.  At
    [http://example.com/file:x] the filter of the code answers true and the
    filter the specification describes answers false. *)
Theorem potentially_unsafe_nonleading_scheme :
  potentially_unsafe "http://example.com/file:x" = true
  /\ is_unsafe_spec "http://example.com/file:x" = false
  /\ match_ci "file:" "http://example.com/file:x" = false.
Proof. repeat split; vm_compute; reflexivity. Qed.

(** ** The output buffer *)

(** C2 (as stated, refuted).  From the initial state, emitting the text
    [a\n], which ends in a newline, and then calling [cr]: [last_out] holds
    the whole text [a\n], which is not the string [\n], so [cr] appends a
    second newline and the buffer changes from [a\n] to [a\n\n]. *)
Lemma cr_after_text_ending_in_newline :
  buf (exec (out ("a" +:+ nl)) fresh) = "a" +:+ nl
  /\ buf (exec cr (exec (out ("a" +:+ nl)) fresh)) = "a" +:+ nl +:+ nl.
Proof. split; reflexivity. Qed.

(** C2 (amended).  [cr] compares the text most recently passed to [out]
    (or the newline that the initial state or an earlier [cr] recorded) with
    the one-character string [\n]: when they differ it appends exactly one
    newline and records it, when they are equal it changes nothing.
    Consequently, after [out s] a [cr] leaves the buffer unchanged exactly
    when [s] is the string [\n], and a [cr] after a [cr] changes nothing. *)
Theorem cr_compares_last_out (st : State) :
  cr st =
    (Ok tt,
     if String.eqb (last_out st) nl then st
     else {| buf := buf st +:+ nl; last_out := nl; disable_tags := disable_tags st |})
  /\ (forall s,
        buf (exec cr (exec (out s) st)) =
          if String.eqb s nl then buf (exec (out s) st)
          else buf (exec (out s) st) +:+ nl)
  /\ exec cr (exec cr st) = exec cr st.
Proof.
  assert (C : forall st0, cr st0 =
    (Ok tt,
     if String.eqb (last_out st0) nl then st0
     else {| buf := buf st0 +:+ nl; last_out := nl;
             disable_tags := disable_tags st0 |})).
  { intros st0. unfold cr. destruct (String.eqb (last_out st0) nl); reflexivity. }
  split; [ apply C | split ].
  - intros s. unfold exec. rewrite C. simpl.
    destruct (String.eqb s nl); reflexivity.
  - unfold exec. rewrite (C st). simpl.
    destruct (String.eqb (last_out st) nl) eqn:E; rewrite C; simpl.
    + rewrite E. reflexivity.
    + reflexivity.
Qed.

(** ** Links *)

Lemma append_nil_r (s : string) : s +:+ "" = s.
Proof.
  induction s as [|c s IH]; [ reflexivity | ].
  rewrite append_cons, IH. reflexivity.
Qed.

Lemma append_assoc (s1 s2 s3 : string) : (s1 +:+ s2) +:+ s3 = s1 +:+ (s2 +:+ s3).
Proof.
  induction s1 as [|c s1 IH]; [ reflexivity | ].
  rewrite !append_cons, IH. reflexivity.
Qed.

Section Link.

Variable escape_xml : string -> bool -> string.
Variable self : HtmlRenderer.

(** C3.  Entering a Link node emits the tag [a] built from the attributes
    handed in followed by the handler's own, [added].  When the safe flag
    is on and the destination is classified unsafe, [added] has no
    attribute named [href]; in every other case it holds [href] with the
    escaped destination.  It holds [title], with the escaped title, exactly
    when the node's title is present (neither [None] nor empty).  The text
    of the tag built from [added] alone is [<a], the [href] attribute or
    nothing, the [title] attribute or nothing, and [>]. *)
Theorem renderLink_href_title (ev : Event) (node : Node) (attrs : attr_list) (st : State) :
  exists added : attr_list,
    renderLink escape_xml self ev node attrs true st
      = out (tag "a" (attrs ++ added) false) st
    /\ (if safe self && potentially_unsafe (destination node)
        then "href" ∉ added.*1
        else ("href", escape_xml (destination node) true) ∈ added)
    /\ (if truthy_str (title node)
        then exists ti, title node = Some ti /\ ("title", escape_xml ti true) ∈ added
        else "title" ∉ added.*1)
    /\ tag "a" added false =
         "<a"
         +:+ (if safe self && potentially_unsafe (destination node) then ""
              else " href=" +:+ dq +:+ escape_xml (destination node) true +:+ dq)
         +:+ (if truthy_str (title node)
              then " title=" +:+ dq +:+ escape_xml (default "" (title node)) true +:+ dq
              else "")
         +:+ ">".
Proof.
  exists ((if safe self && potentially_unsafe (destination node) then []
           else [("href", escape_xml (destination node) true)])
          ++ (if truthy_str (title node)
              then [("title", escape_xml (default "" (title node)) true)]
              else [])).
  unfold renderLink.
  destruct (safe self && potentially_unsafe (destination node)) eqn:U;
    destruct (truthy_str (title node)) eqn:T; cbn [negb app];
    rewrite ?app_nil_r; (split; [ try reflexivity | split; [ | split ] ]).
  (* the text of the tag *)
  all: try (cbv [tag fold_left format_attr fst snd]; now rewrite !append_assoc).
  (* the attribute list handed to [tag] *)
  all: try (now rewrite <- app_assoc).
  (* href *)
  all: try (apply not_elem_of_nil).
  all: try (apply list_elem_of_singleton; reflexivity).
  all: try (apply elem_of_cons; left; reflexivity).
  all: try (intros H; apply list_elem_of_singleton in H; discriminate).
  (* title *)
  all: destruct (title node) as [ti|]; [ | discriminate ]; exists ti;
    split; [ reflexivity | ]; simpl;
    first [ apply list_elem_of_singleton; reflexivity
          | apply elem_of_cons; right; apply list_elem_of_singleton; reflexivity ].
Qed.

End Link.

(** ** The suppression depth *)

Section Suppression.

Variable escape_xml : string -> bool -> string.
Variable self : HtmlRenderer.

(** [renderNodes] runs the loop from the initial state, whatever the
    instance held before. *)
Lemma renderNodes_render_events evs st0 :
  renderNodes escape_xml self evs st0 =
    match render_events escape_xml self evs fresh with
    | (Ok _, st) => (Ok (buf st), st)
    | (Raise e, st) => (Raise e, st)
    end.
Proof.
  unfold renderNodes, mbind, M_bind, set_state, get_buf. fold fresh.
  destruct (render_events escape_xml self evs fresh) as [[[]|e] st]; reflexivity.
Qed.


End Suppression.


(** ** Unknown node types *)

Section Dispatch.

Variable escape_xml : string -> bool -> string.
Variable self : HtmlRenderer.

Lemma render_events_app evs1 evs2 st :
  render_events escape_xml self (evs1 ++ evs2) st =
    (render_events escape_xml self evs1 ;; render_events escape_xml self evs2) st.
Proof.
  revert st. induction evs1 as [|ev evs1 IH]; intros st; simpl.
  - reflexivity.
  - unfold mbind, M_bind in *.
    destruct (render_event escape_xml self ev st) as [[[]|e] st1];
      [ apply IH | reflexivity ].
Qed.

(** The source-position stage of one event returns the empty list or
    raises; it never touches the state. *)
Lemma sourcepos_attrs_cases n st :
  sourcepos_attrs self n st = (Ok [], st)
  \/ (sourcepos_attrs self n st
        = (Raise (AttributeError "'list' object has no attribute 'push'"), st)
      /\ truthy (dict_get (options self) "sourcepos") = true
      /\ sourcepos n <> None).
Proof.
  unfold sourcepos_attrs.
  destruct (truthy (dict_get (options self) "sourcepos")); [ | now left ].
  destruct (sourcepos n); [ right | now left ].
  repeat split. discriminate.
Qed.

(** The type tags for which [getattr(self, 'render' + t)] finds nothing are
    those outside this list: the twenty node types, and [Nodes] and the
    empty string, for which it finds [renderNodes] and [render]. *)
Lemma render_attributes_None (ty : string) :
  ty ∉ ["Nodes"; "Text"; "Softbreak"; "Hardbreak"; "Emph"; "Strong";
        "HtmlInline"; "CustomInline"; "Link"; "Image"; "Code"; "Document";
        "Paragraph"; "BlockQuote"; "Item"; "List"; "Heading"; "CodeBlock";
        "HtmlBlock"; "CustomBlock"; "ThematicBreak"; ""] ->
  render_attributes escape_xml self !! ("render" +:+ ty) = None.
Proof.
  intros N.
  destruct (render_attributes escape_xml self !! ("render" +:+ ty)) as [f|] eqn:E;
    [ exfalso | reflexivity ].
  apply N. clear N. unfold render_attributes in E.
  apply elem_of_list_to_map_2 in E.
  repeat (apply elem_of_cons in E as [E|E];
    [ injection E as H1 H2; cbv [String.append] in H1; rewrite H1;
      repeat first [ apply list_elem_of_here | apply list_elem_of_further ] | ]).
  apply elem_of_nil in E. contradiction.
Qed.

(** Let the type [t] of the node of [ev] be one for which
    [getattr(self, 'render' + t)] finds no attribute.  Then the dispatcher
    raises [ValueError] with the message [Unknown node type t], leaving the
    state as it was.  And when the events before [ev] were rendered
    without error, reaching the state [st1], the render call raises at
    [ev], the events after [ev] are not rendered, and the buffer and the
    other fields are those of [st1]; the exception raised is the
    dispatcher's whenever [ev] reaches the dispatcher, that is, unless the
    source-position stage that precedes it in the loop has raised. *)
Theorem unknown_node_type_aborts (ev : Event) :
  render_attributes escape_xml self !! ("render" +:+ t (node ev)) = None ->
  (forall st,
      lookup_render_fn escape_xml self (node ev) st
      = (Raise (ValueError ("Unknown node type " +:+ t (node ev))), st))
  /\ (forall evs1 evs2 st0 st1,
        render_events escape_xml self evs1 fresh = (Ok tt, st1) ->
        exists e,
          renderNodes escape_xml self (evs1 ++ ev :: evs2) st0 = (Raise e, st1)
          /\ (sourcepos_attrs self (node ev) st1 = (Ok [], st1) ->
              e = ValueError ("Unknown node type " +:+ t (node ev)))).
Proof.
  intros N.
  assert (L : forall st,
    lookup_render_fn escape_xml self (node ev) st
    = (Raise (ValueError ("Unknown node type " +:+ t (node ev))), st)).
  { intros st. unfold lookup_render_fn. rewrite N. reflexivity. }
  split; [ exact L | ].
  intros evs1 evs2 st0 st1 H1.
  rewrite renderNodes_render_events, render_events_app.
  rewrite (bind_Ok _ _ _ _ _ H1). simpl.
  unfold render_event.
  destruct (sourcepos_attrs_cases (node ev) st1) as [S | (S & _ & _)].
  - exists (ValueError ("Unknown node type " +:+ t (node ev))).
    split; [ | reflexivity ].
    rewrite (bind_Raise _ _ st1 (ValueError ("Unknown node type " +:+ t (node ev))) st1);
      [ reflexivity | ].
    rewrite (bind_Ok _ _ _ _ _ S).
    now rewrite (bind_Raise _ _ _ _ _ (L st1)).
  - exists (AttributeError "'list' object has no attribute 'push'").
    split.
    + rewrite (bind_Raise _ _ st1 (AttributeError "'list' object has no attribute 'push'") st1);
        [ reflexivity | ].
      now rewrite (bind_Raise _ _ _ _ _ S).
    + rewrite S. discriminate.
Qed.

End Dispatch.

(** A document whose second event is the entry of a node of type [Foo]:
    the first event is rendered, then the call raises. *)
Lemma unknown_node_type_aborts_witness :
  render_attributes escape_xml_spec plain_renderer
    !! ("render" +:+ t (node (enter (block_node "Foo" ∅ None None)))) = None
  /\ renderNodes escape_xml_spec plain_renderer
       ([enter (text_node "x" None)]
        ++ enter (block_node "Foo" ∅ None None) :: [enter (text_node "y" None)])
       fresh
     = (Raise (ValueError "Unknown node type Foo"),
        {| buf := "x"; last_out := "x"; disable_tags := 0 |}).
Proof.
  split; [ vm_compute; reflexivity | ].
  destruct (proj2 (unknown_node_type_aborts escape_xml_spec plain_renderer
                     (enter (block_node "Foo" ∅ None None)) eq_refl)
              [enter (text_node "x" None)] [enter (text_node "y" None)] fresh
              {| buf := "x"; last_out := "x"; disable_tags := 0 |} eq_refl)
    as (e & H & He).
  rewrite H, (He eq_refl). reflexivity.
Defined.

(** C5.  The dispatcher does not report every node type without a
    rendering rule as unknown.  The tags [Nodes] and the empty string name
    no node type, yet [getattr(self, 'render' + t)] finds [renderNodes] and
    its alias [render] for them: calling what it found as a handler raises
    [TypeError], not the [ValueError] that names the node type.  And with
    the option [sourcepos] on, a node of the unknown type [Foo] that
    carries a position raises the [AttributeError] of [attrs.push] before
    the dispatcher is reached.  In each case the call aborts with the
    buffer as the events before left it. *)
Theorem rule_less_tag_not_reported_unknown :
  render escape_xml_spec plain_renderer
    [enter (text_node "x" None); enter (block_node "Nodes" ∅ None None)]
  = (Raise TypeError, "x")
  /\ render escape_xml_spec plain_renderer
       [enter (text_node "x" None); enter (block_node "" ∅ None None)]
     = (Raise TypeError, "x")
  /\ render escape_xml_spec sourcepos_renderer
       [enter (block_node "Foo" ∅ (Some ((1, 1), (1, 5))) None)]
     = (Raise (AttributeError "'list' object has no attribute 'push'"), "").
Proof. repeat split; vm_compute; reflexivity. Qed.

(** ** Source positions *)

(** With the option [sourcepos] on, the loop raises at every node that
    carries a position. *)
Lemma sourcepos_attrs_raises (self : HtmlRenderer) (n : Node) pos st :
  truthy (dict_get (options self) "sourcepos") = true ->
  sourcepos n = Some pos ->
  sourcepos_attrs self n st
  = (Raise (AttributeError "'list' object has no attribute 'push'"), st).
Proof. intros O P. unfold sourcepos_attrs. now rewrite O, P. Qed.

(** C6.  With the option [sourcepos] on, rendering a document whose root
    carries the position [[1, 1], [1, 5]] raises [AttributeError] at the
    first event, before anything is emitted: the loop calls [attrs.push],
    and a list has no such method. *)
Theorem sourcepos_render_raises :
  render escape_xml_spec sourcepos_renderer
    [enter document_with_sourcepos; leave document_with_sourcepos]
  = (Raise (AttributeError "'list' object has no attribute 'push'"), "").
Proof. vm_compute. reflexivity. Qed.

(** ** Paragraphs *)

Section Paragraph.

Variable escape_xml : string -> bool -> string.
Variable self : HtmlRenderer.

Lemma in_tight_list_true (gp : option Node) :
  in_tight_list gp = true <->
  exists g, gp = Some g /\ t g = "List"
            /\ truthy (dict_get (list_data g) "tight") = true.
Proof.
  unfold in_tight_list. split.
  - destruct gp as [g|]; [ | discriminate ].
    intros H. apply andb_true_iff in H as [H1 H2].
    apply String.eqb_eq in H1. eauto.
  - intros (g & -> & H1 & H2). rewrite H1, H2. reflexivity.
Qed.

Lemma lookup_Paragraph (n : Node) st :
  t n = "Paragraph" ->
  lookup_render_fn escape_xml self n st = (Ok renderParagraph, st).
Proof. intros H. unfold lookup_render_fn. rewrite H. reflexivity. Qed.

(** C7.  Let [ev] be an event of a Paragraph node whose parent is [p].
    (1) When the grandparent exists, is a List node and its [tight] entry
    is set, the handler emits nothing, whether entering or leaving: it
    returns with the state unchanged, and the traversal goes on with the
    events that follow, those of the paragraph's content.  (2) For every
    other paragraph, entering runs [cr] and then emits the opening tag [p]
    with the attributes of the event, and leaving emits [</p>] and then
    runs [cr]. *)
Theorem paragraph_in_tight_list (ev : Event) (p : Node) (attrs : attr_list) (st : State) :
  t (node ev) = "Paragraph" ->
  parent (node ev) = Some p ->
  ((exists g, parent p = Some g /\ t g = "List"
              /\ truthy (dict_get (list_data g) "tight") = true) ->
     (forall entering,
        renderParagraph ev (node ev) attrs entering st = (Ok tt, st))
     /\ (forall rest,
          sourcepos_attrs self (node ev) st = (Ok attrs, st) ->
          render_events escape_xml self (ev :: rest) st
          = render_events escape_xml self rest st))
  /\ (~ (exists g, parent p = Some g /\ t g = "List"
                  /\ truthy (dict_get (list_data g) "tight") = true) ->
      renderParagraph ev (node ev) attrs true st
        = (cr ;; out (tag "p" attrs false)) st
      /\ renderParagraph ev (node ev) attrs false st
        = (out "</p>" ;; cr) st
      /\ (sourcepos_attrs self (node ev) st = (Ok attrs, st) ->
          render_event escape_xml self ev st
          = (if entering ev then cr ;; out (tag "p" attrs false)
             else out "</p>" ;; cr) st)).
Proof.
  intros Ht Hp.
  assert (D : sourcepos_attrs self (node ev) st = (Ok attrs, st) ->
    render_event escape_xml self ev st
    = renderParagraph ev (node ev) attrs (entering ev) st).
  { intros S. unfold render_event. rewrite (bind_Ok _ _ _ _ _ S).
    now rewrite (bind_Ok _ _ _ _ _ (lookup_Paragraph _ st Ht)). }
  split.
  - intros G. apply in_tight_list_true in G.
    assert (R : forall e, renderParagraph ev (node ev) attrs e st = (Ok tt, st)).
    { intros e. unfold renderParagraph. rewrite Hp, G. reflexivity. }
    split; [ exact R | ].
    intros rest S. simpl.
    assert (D' := D S). rewrite R in D'.
    now rewrite (bind_Ok _ _ _ _ _ D').
  - intros G.
    assert (F : in_tight_list (parent p) = false).
    { destruct (in_tight_list (parent p)) eqn:F; [ | reflexivity ].
      apply in_tight_list_true in F. contradiction. }
    assert (R : forall e, renderParagraph ev (node ev) attrs e st
      = (if e then cr ;; out (tag "p" attrs false) else out "</p>" ;; cr) st).
    { intros e. unfold renderParagraph. rewrite Hp, F. destruct e; reflexivity. }
    split; [ apply (R true) | split; [ apply (R false) | ] ].
    intros S. rewrite (D S). apply R.
Qed.

End Paragraph.

(** The paragraph of an item of a tight bullet list: neither event of the
    paragraph changes the state. *)
Lemma paragraph_in_tight_list_witness :
  t (node (enter tight_paragraph)) = "Paragraph"
  /\ parent (node (enter tight_paragraph)) = Some tight_item
  /\ (exists g, parent tight_item = Some g /\ t g = "List"
                /\ truthy (dict_get (list_data g) "tight") = true)
  /\ forall entering,
       renderParagraph (enter tight_paragraph) (node (enter tight_paragraph)) []
         entering fresh
       = (Ok tt, fresh).
Proof.
  assert (G : exists g, parent tight_item = Some g /\ t g = "List"
                /\ truthy (dict_get (list_data g) "tight") = true).
  { exists tight_list. split; [ reflexivity | split; reflexivity ]. }
  split; [ reflexivity | ]. split; [ reflexivity | ]. split; [ exact G | ].
  exact (proj1 (proj1 (paragraph_in_tight_list escape_xml_spec plain_renderer
    (enter tight_paragraph) tight_item [] fresh eq_refl eq_refl) G)).
Defined.

(** ** Code blocks *)

(** C8.  For every escaping function that leaves the two texts [python]
    and [a=1\n] as they are (they hold no character to escape), rendering
    the single event of a CodeBlock node with info string [python extra]
    and literal [a=1\n] returns
    [<pre><code class="language-python">a=1\n</code></pre>\n]: the class
    comes from the first word of the info string, the literal is emitted
    in one piece, and the closing [cr] appends the final newline. *)
Theorem code_block_python (escape_xml : string -> bool -> string) (self : HtmlRenderer) :
  escape_xml "python" true = "python" ->
  escape_xml ("a=1" +:+ nl) false = "a=1" +:+ nl ->
  render escape_xml self
    [enter (code_block_node (Some "python extra") ("a=1" +:+ nl))]
  = (Ok ("<pre><code class=" +:+ dq +:+ "language-python" +:+ dq +:+ ">a=1"
         +:+ nl +:+ "</code></pre>" +:+ nl),
     "<pre><code class=" +:+ dq +:+ "language-python" +:+ dq +:+ ">a=1"
     +:+ nl +:+ "</code></pre>" +:+ nl).
Proof.
  intros H1 H2.
  unfold render. rewrite renderNodes_render_events.
  assert (S : forall st, sourcepos_attrs self
      (code_block_node (Some "python extra") ("a=1" +:+ nl)) st = (Ok [], st)).
  { intros st. unfold sourcepos_attrs. simpl.
    destruct (truthy (dict_get (options self) "sourcepos")); reflexivity. }
  assert (L : forall st, lookup_render_fn escape_xml self
      (code_block_node (Some "python extra") ("a=1" +:+ nl)) st
      = (Ok (renderCodeBlock escape_xml), st)).
  { intros st. reflexivity. }
  cbn [render_events]. unfold render_event.
  rewrite (bind_Ok _ _ fresh tt
    (exec (renderCodeBlock escape_xml
             (enter (code_block_node (Some "python extra") ("a=1" +:+ nl)))
             (code_block_node (Some "python extra") ("a=1" +:+ nl)) [] true) fresh)).
  - unfold exec, renderCodeBlock. cbn [info literal code_block_node truthy_str].
    change (split_ws (default "" (Some "python extra"))) with ["python"; "extra"].
    cbn [negb String.eqb String.length Nat.ltb Nat.leb app].
    rewrite H1.
    unfold mbind, M_bind, cr, out, fresh. simpl. rewrite H2. reflexivity.
  - rewrite (bind_Ok _ _ _ _ _ (S fresh)), (bind_Ok _ _ _ _ _ (L fresh)).
    cbn [entering node enter].
    unfold exec. apply surjective_pairing.
Qed.

Lemma code_block_python_witness :
  escape_xml_spec "python" true = "python"
  /\ escape_xml_spec ("a=1" +:+ nl) false = "a=1" +:+ nl
  /\ render escape_xml_spec plain_renderer
       [enter (code_block_node (Some "python extra") ("a=1" +:+ nl))]
     = (Ok ("<pre><code class=" +:+ dq +:+ "language-python" +:+ dq +:+ ">a=1"
            +:+ nl +:+ "</code></pre>" +:+ nl),
        "<pre><code class=" +:+ dq +:+ "language-python" +:+ dq +:+ ">a=1"
        +:+ nl +:+ "</code></pre>" +:+ nl).
Proof.
  split; [ reflexivity | split; [ reflexivity | ] ].
  exact (code_block_python escape_xml_spec plain_renderer eq_refl eq_refl).
Defined.

(** ** Construction *)

(** C9 (as stated, refuted).  A renderer is built from options whose
    [safe] entry is the string [yes]: the constructor returns the renderer,
    and rendering an inline of raw HTML with it emits the placeholder of
    the safe mode, the string counting as true. *)
Lemma init_accepts_non_boolean_safe :
  HtmlRenderer_init safe_yes_options
  = Ok {| softbreak := nl; options := safe_yes_options |}
  /\ render escape_xml_spec {| softbreak := nl; options := safe_yes_options |}
       [enter html_inline]
     = (Ok "<!-- raw HTML omitted -->", "<!-- raw HTML omitted -->").
Proof. split; [ reflexivity | vm_compute; reflexivity ]. Qed.

(** C9 (amended).  The constructor raises on no input: it stores the
    options it is given, whatever the shape of their values, and sets the
    soft break to a newline.  An option is read when rendering, by its
    truth value: with the entry [safe] holding any value [v], an inline of
    raw HTML is replaced by the placeholder exactly when [v] is true as a
    Python condition. *)
Theorem init_stores_options (opts : gmap string pyval) :
  HtmlRenderer_init opts = Ok {| softbreak := nl; options := opts |}
  /\ forall (v : pyval) ev node attrs entering st,
       renderHtmlInline {| softbreak := nl; options := <["safe" := v]> opts |}
         ev node attrs entering st
       = out (if truthy v then "<!-- raw HTML omitted -->" else literal node) st.
Proof.
  split; [ reflexivity | ].
  intros v ev node attrs entering st.
  unfold renderHtmlInline, safe, dict_get. cbn [options].
  rewrite lookup_insert_eq. cbn [default]. unfold id.
  destruct (truthy v); reflexivity.
Qed.

(** ** Nested images *)

Lemma image_counts_app evs1 evs2 :
  image_enters (evs1 ++ evs2) - image_exits (evs1 ++ evs2)
  = (image_enters evs1 - image_exits evs1) + (image_enters evs2 - image_exits evs2).
Proof.
  induction evs1 as [|ev evs1 IH].
  - unfold image_enters at 2, image_exits at 2. simpl. lia.
  - rewrite <- app_comm_cons, !image_delta_counts, IH. lia.
Qed.

(** In a well-formed sequence the enters are at least as many as the
    exits. *)
Lemma well_formed_from_counts evs : forall d,
  well_formed_from d evs = true -> 0 <= d ->
  0 <= d + (image_enters evs - image_exits evs).
Proof.
  induction evs as [|ev evs IH]; intros d W D.
  - unfold image_enters, image_exits. simpl. lia.
  - simpl in W. apply andb_true_iff in W as [W1 W2]. apply Z.leb_le in W1.
    rewrite image_delta_counts. specialize (IH _ W2 W1). lia.
Qed.

Section NestedImages.

Variable escape_xml : string -> bool -> string.
Variable self : HtmlRenderer.

(** Entering an Image node at a depth other than zero, and leaving one at
    a depth other than one, emits nothing. *)
Lemma renderImage_silent ev n attrs (e : bool) st :
  disable_tags st <> (if e then 0 else 1) ->
  renderImage escape_xml self ev n attrs e st
  = (Ok tt, {| buf := buf st; last_out := last_out st;
               disable_tags := disable_tags st + (if e then 1 else -1) |}).
Proof.
  intros D.
  unfold renderImage, mbind, M_bind, get_disable_tags, set_disable_tags, pass,
    mret, M_ret.
  destruct e; simpl.
  - destruct (Z.eqb_spec (disable_tags st) 0); [ contradiction | reflexivity ].
  - destruct (Z.eqb_spec (disable_tags st - 1) 0); [ lia | reflexivity ].
Qed.

(** C10.  Let a traversal consist of a well-formed sequence [pre], the
    entry [outer] of an Image node and a well-formed sequence [mid] of
    events inside that node, rendered without error up to the state [st].
    (1) The depth in [st] is at least one, and an Image node entered there
    emits nothing: the buffer and the last text stay, the depth grows by
    one.  (2) After that entry [inner] and the events [mid2] of the inner
    node, in which enters and exits match, the depth is at least two, and
    leaving the inner node emits nothing: neither a title nor the end of
    the tag.  (3) Only at depth zero does an entry emit the opening of the
    [img] tag, and only an exit that brings the depth back to zero emits
    the title, when present, and the end of the tag. *)
Theorem nested_image_emits_nothing (pre mid : list Event) (outer : Event) (st : State) :
  well_formed pre = true ->
  is_image outer && entering outer = true ->
  well_formed mid = true ->
  render_events escape_xml self (pre ++ outer :: mid) fresh = (Ok tt, st) ->
  (1 <= disable_tags st
   /\ forall ev n attrs,
        renderImage escape_xml self ev n attrs true st
        = (Ok tt, {| buf := buf st; last_out := last_out st;
                     disable_tags := disable_tags st + 1 |}))
  /\ (forall inner mid2 st2,
        is_image inner && entering inner = true ->
        well_formed mid2 = true ->
        image_enters mid2 = image_exits mid2 ->
        render_events escape_xml self (inner :: mid2) st = (Ok tt, st2) ->
        2 <= disable_tags st2
        /\ forall ev n attrs,
             renderImage escape_xml self ev n attrs false st2
             = (Ok tt, {| buf := buf st2; last_out := last_out st2;
                          disable_tags := disable_tags st2 - 1 |}))
  /\ (forall ev n attrs st',
        disable_tags st' = 0 ->
        exec (renderImage escape_xml self ev n attrs true) st'
        = {| buf := buf st' +:+ "<img src=" +:+ dq
                    +:+ (if safe self && potentially_unsafe (destination n) then ""
                         else escape_xml (destination n) true)
                    +:+ dq +:+ " alt=" +:+ dq;
             last_out := "<img src=" +:+ dq
                    +:+ (if safe self && potentially_unsafe (destination n) then ""
                         else escape_xml (destination n) true)
                    +:+ dq +:+ " alt=" +:+ dq;
             disable_tags := 1 |})
  /\ (forall ev n attrs st',
        disable_tags st' = 1 ->
        buf (exec (renderImage escape_xml self ev n attrs false) st')
        = (buf st'
           +:+ (if truthy_str (title n)
                then dq +:+ " title=" +:+ dq
                     +:+ escape_xml (default "" (title n)) true
                else ""))
          +:+ dq +:+ " />"
        /\ disable_tags (exec (renderImage escape_xml self ev n attrs false) st') = 0).
Proof.
  intros Wp Ho Wm H.
  apply andb_true_iff in Ho as [Ho1 Ho2].
  pose proof (render_events_depth _ _ _ _ _ H) as D.
  rewrite image_counts_app, image_delta_counts in D.
  unfold image_delta in D. rewrite Ho1, Ho2 in D. simpl in D.
  pose proof (well_formed_from_counts _ _ Wp (Z.le_refl 0)) as Bp.
  pose proof (well_formed_from_counts _ _ Wm (Z.le_refl 0)) as Bm.
  assert (D1 : 1 <= disable_tags st) by lia.
  split; [ split; [ exact D1 | ] | split; [ | split ] ].
  - intros ev n attrs.
    rewrite (renderImage_silent ev n attrs true); [ reflexivity | simpl; lia ].
  - intros inner mid2 st2 Hi W2 B2 H2.
    apply andb_true_iff in Hi as [Hi1 Hi2].
    pose proof (render_events_depth _ _ _ _ _ H2) as D2.
    rewrite image_delta_counts in D2.
    unfold image_delta in D2. rewrite Hi1, Hi2 in D2.
    assert (D3 : 2 <= disable_tags st2) by lia.
    split; [ exact D3 | ].
    intros ev n attrs.
    rewrite (renderImage_silent ev n attrs false); [ reflexivity | simpl; lia ].
  - intros ev n attrs st' Z0.
    unfold exec, renderImage, mbind, M_bind, get_disable_tags, set_disable_tags,
      out. simpl. rewrite Z0. simpl.
    destruct (safe self && potentially_unsafe (destination n)); simpl;
      rewrite Z0; reflexivity.
  - intros ev n attrs st' Z1.
    unfold exec, renderImage, mbind, M_bind, get_disable_tags, set_disable_tags,
      out, pass, mret, M_ret. simpl. rewrite Z1. simpl.
    destruct (truthy_str (title n)); simpl; rewrite ?append_nil_r;
      split; reflexivity.
Qed.

End NestedImages.

(** An image inside the alternative text of an image: entering the inner
    one leaves the buffer as the outer one left it. *)
Lemma nested_image_emits_nothing_witness :
  well_formed [] = true
  /\ is_image (enter (image_node "u" None None))
     && entering (enter (image_node "u" None None)) = true
  /\ render_events escape_xml_spec plain_renderer
       ([] ++ enter (image_node "u" None None) :: []) fresh
     = (Ok tt, inside_image)
  /\ renderImage escape_xml_spec plain_renderer
       (enter (image_node "v" (Some "t") None)) (image_node "v" (Some "t") None)
       [] true inside_image
     = (Ok tt, {| buf := buf inside_image; last_out := last_out inside_image;
                  disable_tags := disable_tags inside_image + 1 |}).
Proof.
  split; [ reflexivity | ]. split; [ reflexivity | ]. split; [ reflexivity | ].
  exact (proj2 (proj1 (nested_image_emits_nothing escape_xml_spec plain_renderer
    [] [] (enter (image_node "u" None None)) inside_image
    eq_refl eq_refl eq_refl eq_refl))
    (enter (image_node "v" (Some "t") None)) (image_node "v" (Some "t") None) []).
Defined.

(** ** The scenarios of the specification *)

(** An image with a [javascript:] destination and the alternative text
    [x], in safe mode. *)
Example scenario_unsafe_image :
  render escape_xml_spec safe_renderer
    [enter (image_node "javascript:alert(1)" None None);
     enter (text_node "x" None);
     leave (image_node "javascript:alert(1)" None None)]
  = (Ok ("<img src=" +:+ dq +:+ dq +:+ " alt=" +:+ dq +:+ "x" +:+ dq +:+ " />"),
     "<img src=" +:+ dq +:+ dq +:+ " alt=" +:+ dq +:+ "x" +:+ dq +:+ " />").
Proof. vm_compute. reflexivity. Qed.

(** A tight bullet list with one item holding the paragraph [one]. *)
Example scenario_tight_list :
  render escape_xml_spec plain_renderer
    [enter tight_list; enter tight_item; enter tight_paragraph;
     enter (text_node "one" (Some tight_paragraph));
     leave tight_paragraph; leave tight_item; leave tight_list]
  = (Ok ("<ul>" +:+ nl +:+ "<li>one</li>" +:+ nl +:+ "</ul>" +:+ nl),
     "<ul>" +:+ nl +:+ "<li>one</li>" +:+ nl +:+ "</ul>" +:+ nl).
Proof. vm_compute. reflexivity. Qed.

(** An inline of raw HTML in safe mode. *)
Example scenario_html_inline :
  render escape_xml_spec safe_renderer [enter html_inline]
  = (Ok "<!-- raw HTML omitted -->", "<!-- raw HTML omitted -->").
Proof. vm_compute. reflexivity. Qed.

(** * Further properties of the code *)

(** ** The tag builder *)

Lemma fold_left_format_attr attrs : forall acc,
  fold_left (fun r attr => r +:+ format_attr attr) attrs acc
  = acc +:+ attrs_text attrs.
Proof.
  induction attrs as [|a attrs IH]; intros acc; simpl.
  - now rewrite append_nil_r.
  - now rewrite IH, append_assoc.
Qed.

(** [tag] writes [<], the name, the attributes in the order of the list,
    each as a space, its name, [="], its value and ["], then [ /] for a
    self-closing tag, then [>]; names and values are copied as they are. *)
Theorem tag_text (name : string) (attrs : list (string * string)) (selfclosing : bool) :
  tag name attrs selfclosing
  = "<" +:+ name +:+ attrs_text attrs
    +:+ (if selfclosing then " /" else "") +:+ ">".
Proof.
  unfold tag. rewrite fold_left_format_attr.
  destruct selfclosing; rewrite !append_assoc; reflexivity.
Qed.

Lemma has_gt_append a b : has_gt (a +:+ b) = has_gt a || has_gt b.
Proof.
  induction a as [|c a IH]; [ reflexivity | ].
  rewrite append_cons. cbn [has_gt]. rewrite IH. apply orb_assoc.
Qed.

Lemma has_gt_attrs_text attrs : no_gt_attrs attrs = true -> has_gt (attrs_text attrs) = false.
Proof.
  induction attrs as [|[k v] attrs IH]; simpl; [ reflexivity | ].
  intros H. apply andb_true_iff in H as [H1 H2].
  apply andb_true_iff in H1 as [Hk Hv].
  apply negb_true_iff in Hk, Hv. simpl in Hk, Hv.
  unfold format_attr. cbn [fst snd].
  rewrite !has_gt_append, Hk, Hv, (IH H2). reflexivity.
Qed.

(** Inside a match, a text without ['>'] followed by ['>'] is dropped. *)
Lemma sub_reHtmlTag_from_skip x : forall y,
  has_gt x = false ->
  sub_reHtmlTag_from true (x +:+ String ">" y) = sub_reHtmlTag_from false y.
Proof.
  induction x as [|c x IH]; intros y H.
  - reflexivity.
  - rewrite append_cons. cbn [has_gt] in H. apply orb_false_iff in H as [H1 H2].
    cbn [sub_reHtmlTag_from]. rewrite H1. cbn [negb]. now apply IH.
Qed.

(** A tag whose name and attributes hold no ['>'] is removed whole by
    [re.sub(reHtmlTag, '', ...)]: while tags are disabled, emitting it adds
    nothing to the buffer. *)
Theorem tag_stripped (name : string) (attrs : list (string * string))
    (selfclosing : bool) (st : State) :
  has_gt name = false ->
  no_gt_attrs attrs = true ->
  0 < disable_tags st ->
  sub_reHtmlTag (tag name attrs selfclosing) = ""
  /\ buf (exec (out (tag name attrs selfclosing)) st) = buf st.
Proof.
  intros Hn Ha D.
  assert (S : sub_reHtmlTag (tag name attrs selfclosing) = "").
  { rewrite tag_text.
    change ("<" +:+ name +:+ attrs_text attrs
            +:+ (if selfclosing then " /" else "") +:+ ">")
      with (String "<" (name +:+ attrs_text attrs
            +:+ (if selfclosing then " /" else "") +:+ String ">" "")).
    rewrite <- !append_assoc.
    unfold sub_reHtmlTag. cbn [sub_reHtmlTag_from Ascii.eqb Bool.eqb andb].
    rewrite has_gt_app. apply sub_reHtmlTag_from_skip.
    rewrite !has_gt_append, Hn, (has_gt_attrs_text _ Ha).
    destruct selfclosing; reflexivity. }
  split; [ exact S | ].
  unfold exec, out. simpl. apply Z.ltb_lt in D. rewrite D, S.
  apply append_nil_r.
Qed.

Lemma tag_stripped_witness :
  has_gt "a" = false
  /\ no_gt_attrs [("href", "u"); ("title", "t")] = true
  /\ 0 < disable_tags inside_image
  /\ buf (exec (out (tag "a" [("href", "u"); ("title", "t")] false)) inside_image)
     = buf inside_image.
Proof.
  split; [ reflexivity | ]. split; [ reflexivity | ]. split; [ reflexivity | ].
  exact (proj2 (tag_stripped "a" [("href", "u"); ("title", "t")] false inside_image
                  eq_refl eq_refl eq_refl)).
Defined.

(** ** Removing tags *)

Lemma length_sub_reHtmlTag_from s : forall skipping,
  (String.length (sub_reHtmlTag_from skipping s) <= String.length s)%nat.
Proof.
  induction s as [|c s IH]; intros skipping; simpl; [ lia | ].
  destruct skipping.
  - specialize (IH (negb (Ascii.eqb c ">"))). lia.
  - destruct (Ascii.eqb c "<" && has_gt s).
    + specialize (IH true). lia.
    + simpl. specialize (IH false). lia.
Qed.

(** [re.sub(reHtmlTag, '', s)] leaves nothing to remove: applying it again
    changes nothing.  It never makes a text longer, and it leaves a text
    without ['<'] unchanged. *)
Theorem sub_reHtmlTag_idempotent (s : string) :
  sub_reHtmlTag (sub_reHtmlTag s) = sub_reHtmlTag s
  /\ (String.length (sub_reHtmlTag s) <= String.length s)%nat
  /\ (contains "<" s = false -> sub_reHtmlTag s = s).
Proof.
  split; [ | split ].
  - apply sub_reHtmlTag_id. apply has_tag_sub.
  - apply length_sub_reHtmlTag_from.
  - intros H. apply sub_reHtmlTag_id.
    induction s as [|c s IH]; [ reflexivity | ].
    simpl in *. apply orb_false_iff in H as [H1 H2].
    rewrite H1, (IH H2). reflexivity.
Qed.

(** ** The safety filter, further *)

Lemma lower_lower c : lower (lower c) = lower c.
Proof. destruct c as [[] [] [] [] [] [] [] []]; reflexivity. Qed.

Lemma match_ci_lower p : forall s, match_ci p (lower_string s) = match_ci p s.
Proof.
  induction p as [|a p IH]; intros [|b s]; simpl; try reflexivity.
  unfold eqb_ci. now rewrite lower_lower, IH.
Qed.

Lemma search_ci_lower p s : search_ci p (lower_string s) = search_ci p s.
Proof.
  induction s as [|b s IH].
  - reflexivity.
  - cbn [lower_string search_ci]. rewrite IH.
    change (String (lower b) (lower_string s)) with (lower_string (String b s)).
    now rewrite match_ci_lower.
Qed.

Lemma potentially_unsafe_lower url :
  potentially_unsafe (lower_string url) = potentially_unsafe url.
Proof.
  unfold potentially_unsafe, reUnsafeProtocol, reSafeDataProtocol.
  now rewrite !match_ci_lower, !search_ci_lower.
Qed.

(** The filter ignores the case of ASCII letters: two URLs that are equal
    once folded to lower case are classified alike. *)
Theorem potentially_unsafe_ignores_case (url1 url2 : string) :
  lower_string url1 = lower_string url2 ->
  potentially_unsafe url1 = potentially_unsafe url2.
Proof.
  intros H.
  rewrite <- (potentially_unsafe_lower url1), <- (potentially_unsafe_lower url2).
  now rewrite H.
Qed.

Lemma potentially_unsafe_ignores_case_witness :
  lower_string "JavaScript:Alert(1)" = lower_string "javascript:alert(1)"
  /\ potentially_unsafe "JavaScript:Alert(1)" = potentially_unsafe "javascript:alert(1)".
Proof.
  split; [ reflexivity | ].
  exact (potentially_unsafe_ignores_case "JavaScript:Alert(1)" "javascript:alert(1)" eq_refl).
Defined.

Lemma eqb_ci_colon b : eqb_ci ":" b = true -> b = ":"%char.
Proof.
  destruct b as [[] [] [] [] [] [] [] []]; vm_compute; intros H;
    first [ reflexivity | discriminate ].
Qed.

(** A literal pattern that holds a colon only matches where the text holds
    one. *)
Lemma match_ci_colon p : forall s,
  contains ":" p = true -> match_ci p s = true -> contains ":" s = true.
Proof.
  induction p as [|a p IH]; intros [|b s] C H; simpl in *; try discriminate.
  apply andb_true_iff in H as [H1 H2].
  apply orb_true_iff in C as [C|C].
  - apply Ascii.eqb_eq in C. subst a.
    apply eqb_ci_colon in H1. subst b. reflexivity.
  - rewrite (IH _ C H2). apply orb_true_r.
Qed.

Lemma search_ci_colon p s :
  contains ":" p = true -> search_ci p s = true -> contains ":" s = true.
Proof.
  intros C. induction s as [|b s IH]; cbn [search_ci]; intros H.
  - rewrite orb_false_r in H. eapply match_ci_colon; eauto.
  - apply orb_true_iff in H as [H|H].
    + eapply match_ci_colon; eauto.
    + cbn [contains]. rewrite (IH H). apply orb_true_r.
Qed.

(** A URL without a colon, such as a relative path, is never classified
    unsafe. *)
Theorem potentially_unsafe_needs_colon (url : string) :
  contains ":" url = false -> potentially_unsafe url = false.
Proof.
  intros H. unfold potentially_unsafe.
  destruct (reUnsafeProtocol url) eqn:U; [ exfalso | reflexivity ].
  unfold reUnsafeProtocol in U.
  assert (C : contains ":" url = true); [ | congruence ].
  repeat (apply orb_true_iff in U as [U|U]).
  - eapply match_ci_colon; [ | exact U ]. reflexivity.
  - eapply search_ci_colon; [ | exact U ]. reflexivity.
  - eapply search_ci_colon; [ | exact U ]. reflexivity.
  - eapply search_ci_colon; [ | exact U ]. reflexivity.
Qed.

Lemma potentially_unsafe_needs_colon_witness :
  contains ":" "../images/logo.png" = false
  /\ potentially_unsafe "../images/logo.png" = false.
Proof.
  split; [ reflexivity | ].
  exact (potentially_unsafe_needs_colon "../images/logo.png" eq_refl).
Defined.

(** The first character of a text matched by a literal pattern, up to
    case. *)
Lemma match_ci_head a p s :
  match_ci (String a p) s = true ->
  exists b s', s = String b s' /\ eqb_ci a b = true.
Proof.
  destruct s as [|b s']; simpl; [ discriminate | ].
  intros H. apply andb_true_iff in H as [H _]. eauto.
Qed.

(** A URL that starts, in any letter case, with [javascript:], [vbscript:]
    or [file:] is classified unsafe: the allow list of image data cannot
    apply to it. *)
Theorem potentially_unsafe_leading_scheme (url : string) :
  match_ci "javascript:" url || match_ci "vbscript:" url || match_ci "file:" url = true ->
  potentially_unsafe url = true.
Proof.
  intros H. unfold potentially_unsafe. apply andb_true_iff. split.
  - unfold reUnsafeProtocol.
    apply orb_true_iff in H as [H|H]; [ apply orb_true_iff in H as [H|H] | ].
    + now rewrite H.
    + apply match_ci_search_ci in H. rewrite H. now rewrite orb_true_r.
    + apply match_ci_search_ci in H. rewrite H. now rewrite !orb_true_r.
  - apply negb_true_iff. unfold reSafeDataProtocol.
    assert (F : exists b s', url = String b s'
                /\ eqb_ci "j" b || eqb_ci "v" b || eqb_ci "f" b = true).
    { apply orb_true_iff in H as [H|H]; [ apply orb_true_iff in H as [H|H] | ];
        apply match_ci_head in H as (b & s' & -> & Eb); exists b, s';
        rewrite Eb, ?orb_true_r; split; reflexivity. }
    destruct F as (b & s' & -> & F).
    assert (N : forall p, match_ci (String "d" p) (String b s') = false).
    { intros p. cbn [match_ci].
      destruct b as [[] [] [] [] [] [] [] []]; vm_compute in F;
        first [ discriminate | reflexivity ]. }
    now rewrite !N.
Qed.

Lemma potentially_unsafe_leading_scheme_witness :
  match_ci "javascript:" "VBScript:msgbox(1)" || match_ci "vbscript:" "VBScript:msgbox(1)"
    || match_ci "file:" "VBScript:msgbox(1)" = true
  /\ potentially_unsafe "VBScript:msgbox(1)" = true.
Proof.
  split; [ reflexivity | ].
  exact (potentially_unsafe_leading_scheme "VBScript:msgbox(1)" eq_refl).
Defined.

(** ** Properties kept along a traversal *)

Lemma preserves_ret {A : Type} P (a : A) : preserves P (mret a).
Proof. intros st r st' H E. unfold mret, M_ret in E. now inversion E; subst. Qed.

Lemma preserves_raise {A : Type} P (e : exn) : preserves P (@raise A e).
Proof. intros st r st' H E. unfold raise in E. now inversion E; subst. Qed.

Lemma preserves_get P : preserves P get_disable_tags.
Proof. intros st r st' H E. unfold get_disable_tags in E. now inversion E; subst. Qed.

Lemma preserves_bind {A B : Type} P (m : M A) (f : A -> M B) :
  preserves P m -> (forall a, preserves P (f a)) -> preserves P (m ≫= f).
Proof.
  intros Hm Hf st r st' H E. unfold mbind, M_bind in E.
  destruct (m st) as [[a|e] st1] eqn:E1.
  - eapply Hf; [ | exact E ]. eapply Hm; eauto.
  - inversion E; subst. eapply Hm; eauto.
Qed.

(** Goals [preserves P m] for [m] built from the operations on the state,
    given that [P] is stable. *)
Ltac preserves_tac HS :=
  destruct HS as (Hout & Hcr & Hset);
  repeat first
    [ apply preserves_ret
    | apply preserves_raise
    | apply preserves_get
    | apply Hout
    | apply Hcr
    | apply Hset
    | apply preserves_bind; [ | intros ? ]
    | match goal with
      | |- preserves _ (if ?b then _ else _) => destruct b
      | |- preserves _ (match ?o with Some _ => _ | None => _ end) => destruct o
      | |- preserves _ (match ?l with [] => _ | _ :: _ => _ end) => destruct l
      end ].

Section Preservation.

Variable escape_xml : string -> bool -> string.
Variable self : HtmlRenderer.
Variable P : State -> Prop.
Hypothesis HS : stable P.

(** Every handler that [getattr] can find keeps a stable property. *)
Lemma render_attributes_preserves (name : string) (f : handler) ev n attrs e :
  render_attributes escape_xml self !! name = Some f ->
  preserves P (f ev n attrs e).
Proof.
  intros H. unfold render_attributes in H.
  apply elem_of_list_to_map_2 in H.
  repeat (apply elem_of_cons in H as [H|H];
    [ injection H as H1 H2; subst f; clear H1 | ]).
  all: try (apply elem_of_nil in H; contradiction).
  all: unfold renderNodes_as_handler, renderText, renderSoftbreak,
         renderHardbreak, renderEmph, renderStrong, renderHtmlInline,
         renderCustomInline, renderLink, renderImage, renderCode,
         renderDocument, renderParagraph, renderBlockQuote, renderItem,
         renderList, renderHeading, renderCodeBlock, renderHtmlBlock,
         renderCustomBlock, renderThematicBreak, pass;
       preserves_tac HS.
Qed.

Lemma sourcepos_attrs_preserves n : preserves P (sourcepos_attrs self n).
Proof. unfold sourcepos_attrs. preserves_tac HS. Qed.

Lemma render_event_preserves ev : preserves P (render_event escape_xml self ev).
Proof.
  intros st r st' Hst E. unfold render_event in E.
  unfold mbind at 1, M_bind at 1 in E.
  destruct (sourcepos_attrs self (node ev) st) as [[attrs|x] st1] eqn:E1;
    pose proof (sourcepos_attrs_preserves _ _ _ _ Hst E1) as H1.
  2:{ now inversion E; subst. }
  unfold mbind, M_bind, lookup_render_fn in E.
  destruct (render_attributes escape_xml self !! ("render" +:+ t (node ev)))
    as [g|] eqn:E3.
  - unfold mret, M_ret in E.
    eapply (render_attributes_preserves _ _ _ _ _ _ E3); eauto.
  - unfold raise in E. now inversion E; subst.
Qed.

Lemma render_events_preserves evs : preserves P (render_events escape_xml self evs).
Proof.
  induction evs as [|ev evs IH]; simpl.
  - apply preserves_ret.
  - apply preserves_bind; [ apply render_event_preserves | intros _; exact IH ].
Qed.

End Preservation.

Lemma stable_extends (b : string) : stable (fun st => exists x, buf st = b +:+ x).
Proof.
  split; [ | split ].
  - intros s st r st' [x Hx] E. unfold out in E. inversion E; subst; clear E. simpl.
    destruct (0 <? disable_tags st); rewrite Hx, append_assoc; eauto.
  - intros st r st' [x Hx] E. unfold cr in E.
    destruct (negb (String.eqb (last_out st) nl)); inversion E; subst; clear E; simpl.
    + rewrite Hx, append_assoc. eauto.
    + eauto.
  - intros d st r st' [x Hx] E. unfold set_disable_tags in E.
    inversion E; subst. simpl. eauto.
Qed.

Lemma stable_line_start : stable (fun st => last_out st = nl -> at_line_start st).
Proof.
  split; [ | split ].
  - intros s st r st' _ E. unfold out in E. inversion E; subst; clear E. simpl.
    intros ->. right. exists (buf st).
    destruct (0 <? disable_tags st); reflexivity.
  - intros st r st' H E. unfold cr in E.
    destruct (negb (String.eqb (last_out st) nl)) eqn:N;
      inversion E; subst; clear E; simpl.
    + intros _. right. exists (buf st). reflexivity.
    + exact H.
  - intros d st r st' H E. unfold set_disable_tags in E.
    inversion E; subst. simpl. exact H.
Qed.

Section Traversal.

Variable escape_xml : string -> bool -> string.
Variable self : HtmlRenderer.

(** Rendering only appends: whatever the events and however the traversal
    ends, the buffer it leaves starts with the buffer it found.  So the
    buffer left by rendering a sequence of events starts with the buffer
    left by rendering any of its prefixes. *)
Theorem render_events_only_appends (evs1 evs2 : list Event) :
  (forall st,
      exists x, buf (exec (render_events escape_xml self evs1) st) = buf st +:+ x)
  /\ (forall st0,
        exists x,
          buf (exec (renderNodes escape_xml self (evs1 ++ evs2)) st0)
          = buf (exec (renderNodes escape_xml self evs1) st0) +:+ x).
Proof.
  assert (A : forall evs st,
      exists x, buf (exec (render_events escape_xml self evs) st) = buf st +:+ x).
  { intros evs st.
    eapply (render_events_preserves escape_xml self _ (stable_extends (buf st)));
      [ | apply surjective_pairing ].
    exists "". now rewrite append_nil_r. }
  split; [ apply A | ].
  intros st0. unfold exec.
  rewrite !renderNodes_render_events, render_events_app.
  destruct (render_events escape_xml self evs1 fresh) as [[[]|e] st1] eqn:E1.
  - rewrite (bind_Ok _ _ _ _ _ E1).
    destruct (A evs2 st1) as [x Hx]. exists x. unfold exec in Hx.
    destruct (render_events escape_xml self evs2 st1) as [[[]|e] st2]; exact Hx.
  - rewrite (bind_Raise _ _ _ _ _ E1). exists "". simpl. now rewrite append_nil_r.
Qed.

(** A traversal started by [renderNodes] keeps the buffer and the last
    text in step: whenever the last text is a newline, the buffer is empty
    or ends with a newline.  So after [cr] the buffer is always empty or
    ends with a newline, and the text emitted next starts a line. *)
Theorem cr_puts_at_line_start (evs : list Event) (st0 : State) :
  let st := exec (renderNodes escape_xml self evs) st0 in
  (last_out st = nl -> at_line_start st)
  /\ at_line_start (exec cr st).
Proof.
  intros st.
  assert (I : last_out st = nl -> at_line_start st).
  { subst st. unfold exec. rewrite renderNodes_render_events.
    destruct (render_events escape_xml self evs fresh) as [r st1] eqn:E.
    assert (I1 : last_out st1 = nl -> at_line_start st1).
    { eapply (render_events_preserves escape_xml self _ stable_line_start);
        [ | exact E ].
      intros _. left. reflexivity. }
    destruct r as [[]|e]; exact I1. }
  split; [ exact I | ].
  unfold exec, cr.
  destruct (String.eqb_spec (last_out st) nl) as [L|L]; simpl.
  - auto.
  - right. exists (buf st). reflexivity.
Qed.

(** [renderNodes] sets the buffer, the last text and the depth anew: what
    it returns or raises, and the state it leaves, do not depend on what an
    earlier call, finished or aborted, left on the instance. *)
Theorem renderNodes_ignores_previous_state (evs evs' : list Event) (st0 st0' : State) :
  renderNodes escape_xml self evs st0 = renderNodes escape_xml self evs st0'
  /\ renderNodes escape_xml self evs (exec (renderNodes escape_xml self evs') st0)
     = renderNodes escape_xml self evs fresh.
Proof. rewrite !renderNodes_render_events. split; reflexivity. Qed.

(** The traversal stops at the first event that raises: the exception and
    the state are those of that moment, whatever events come after. *)
Theorem renderNodes_stops_at_first_error (evs1 evs2 : list Event) (st0 st : State) (e : exn) :
  renderNodes escape_xml self evs1 st0 = (Raise e, st) ->
  renderNodes escape_xml self (evs1 ++ evs2) st0 = (Raise e, st).
Proof.
  rewrite !renderNodes_render_events, render_events_app. intros H.
  destruct (render_events escape_xml self evs1 fresh) as [[[]|x] st1] eqn:E;
    [ discriminate | ].
  inversion H; subst.
  now rewrite (bind_Raise _ _ _ _ _ E).
Qed.

End Traversal.

Lemma renderNodes_stops_at_first_error_witness :
  renderNodes escape_xml_spec plain_renderer
    [enter (text_node "x" None); enter (block_node "List" ∅ None None)] fresh
  = (Raise (KeyError "type"), {| buf := "x"; last_out := "x"; disable_tags := 0 |})
  /\ renderNodes escape_xml_spec plain_renderer
       ([enter (text_node "x" None); enter (block_node "List" ∅ None None)]
        ++ [enter (text_node "y" None)]) fresh
     = (Raise (KeyError "type"), {| buf := "x"; last_out := "x"; disable_tags := 0 |}).
Proof.
  split; [ reflexivity | ].
  exact (renderNodes_stops_at_first_error escape_xml_spec plain_renderer
           [enter (text_node "x" None); enter (block_node "List" ∅ None None)]
           [enter (text_node "y" None)] fresh _ _ eq_refl).
Defined.

(** ** Lists without a type *)

Section ListType.

Variable escape_xml : string -> bool -> string.
Variable self : HtmlRenderer.

(** [renderList] reads [list_data['type']] outside its [try]: at a List
    node whose [list_data] has no entry [type] the render call raises
    [KeyError('type')], for the entering and for the leaving event alike,
    with the buffer as the events before left it. *)
Theorem list_without_type_aborts (evs1 evs2 : list Event) (ev : Event) (st0 st1 : State) :
  t (node ev) = "List" ->
  list_data (node ev) !! "type" = None ->
  sourcepos (node ev) = None ->
  renderNodes escape_xml self evs1 st0 = (Ok (buf st1), st1) ->
  renderNodes escape_xml self (evs1 ++ ev :: evs2) st0 = (Raise (KeyError "type"), st1).
Proof.
  intros Ht Hty Hs H1.
  rewrite renderNodes_render_events in H1.
  rewrite renderNodes_render_events, render_events_app.
  destruct (render_events escape_xml self evs1 fresh) as [[[]|e] st] eqn:E1;
    [ | discriminate ].
  inversion H1; subst st; clear H1.
  rewrite (bind_Ok _ _ _ _ _ E1). cbn [render_events].
  assert (R : render_event escape_xml self ev st1 = (Raise (KeyError "type"), st1)).
  { unfold render_event.
    assert (S : sourcepos_attrs self (node ev) st1 = (Ok [], st1)).
    { unfold sourcepos_attrs. rewrite Hs.
      destruct (truthy (dict_get (options self) "sourcepos")); reflexivity. }
    rewrite (bind_Ok _ _ _ _ _ S).
    assert (L : lookup_render_fn escape_xml self (node ev) st1 = (Ok renderList, st1)).
    { unfold lookup_render_fn. rewrite Ht. reflexivity. }
    rewrite (bind_Ok _ _ _ _ _ L).
    unfold renderList. rewrite Hty. reflexivity. }
  now rewrite (bind_Raise _ _ _ _ _ R).
Qed.

End ListType.

Lemma list_without_type_aborts_witness :
  t (node (leave (block_node "List" ∅ None None))) = "List"
  /\ renderNodes escape_xml_spec plain_renderer
       ([enter (text_node "x" None)]
        ++ leave (block_node "List" ∅ None None) :: [enter (text_node "y" None)]) fresh
     = (Raise (KeyError "type"), {| buf := "x"; last_out := "x"; disable_tags := 0 |}).
Proof.
  split; [ reflexivity | ].
  exact (list_without_type_aborts escape_xml_spec plain_renderer
           [enter (text_node "x" None)] [enter (text_node "y" None)]
           (leave (block_node "List" ∅ None None)) fresh
           {| buf := "x"; last_out := "x"; disable_tags := 0 |}
           eq_refl eq_refl eq_refl eq_refl).
Defined.

(** ** The language of a code block *)

Lemma rev_string_acc s : forall acc, rev_string acc s = rev_string "" s +:+ acc.
Proof.
  induction s as [|c s IH]; intros acc; simpl.
  - reflexivity.
  - rewrite (IH (String c acc)), (IH (String c "")), append_assoc. reflexivity.
Qed.

(** The first piece of [re.split(r'\s+', s)] is the text before the first
    white space of [s]. *)
Lemma split_ws_from_head s : forall cur,
  exists rest,
    split_ws_from cur false s = (rev_string "" cur +:+ first_token s) :: rest.
Proof.
  induction s as [|c s IH]; intros cur; simpl.
  - exists []. now rewrite append_nil_r.
  - destruct (is_space c).
    + eexists. now rewrite append_nil_r.
    + destruct (IH (String c cur)) as [rest Hr]. exists rest. rewrite Hr.
      simpl. rewrite (rev_string_acc cur (String c "")), append_assoc. reflexivity.
Qed.

Section CodeBlock.

Variable escape_xml : string -> bool -> string.

(** The [class] attribute of a code block is decided by the start of the
    info string alone: it is added exactly when the info string is present
    and starts with a character that is not white space, and names the
    text up to the first white space, escaped.  An info string that starts
    with white space gives no class, whatever follows. *)
Theorem renderCodeBlock_class (ev : Event) (n : Node) (attrs : attr_list) (e : bool) (st : State) :
  renderCodeBlock escape_xml ev n attrs e st
  = (cr ;;
     out (tag "pre" [] false
          +:+ tag "code"
                (attrs ++
                 (if String.eqb (first_token (default "" (info n))) "" then []
                  else [("class",
                         "language-"
                         +:+ escape_xml (first_token (default "" (info n))) true)]))
                false) ;;
     out (escape_xml (literal n) false) ;;
     out "</code></pre>" ;;
     cr) st.
Proof.
  unfold renderCodeBlock.
  destruct (info n) as [i|]; cbn [truthy_str default];
    [ | cbn [first_token String.eqb]; now rewrite app_nil_r ].
  destruct i as [|c i]; cbn [negb String.eqb];
    [ cbn [first_token String.eqb]; now rewrite app_nil_r | ].
  destruct (split_ws_from_head (String c i) "") as [rest Hr].
  unfold split_ws, id. rewrite Hr. cbn [rev_string].
  change ("" +:+ first_token (String c i)) with (first_token (String c i)).
  destruct (first_token (String c i)) as [|a w]; cbn [String.length String.eqb].
  - now rewrite app_nil_r.
  - reflexivity.
Qed.

End CodeBlock.

(** ** The alternative text of an image *)

Section AltText.

Variable escape_xml : string -> bool -> string.
Variable self : HtmlRenderer.

(** One event of a Text, Emph or Strong node while tags are disabled. *)
Lemma render_event_plain_inline ev st :
  is_plain_inline ev = true ->
  0 < disable_tags st ->
  exists lo,
    render_event escape_xml self ev st
    = (Ok tt,
       {| buf := buf st +:+ alt_text escape_xml [ev];
          last_out := lo;
          disable_tags := disable_tags st |}).
Proof.
  intros Hp D. unfold is_plain_inline in Hp.
  apply andb_true_iff in Hp as [Ht Hs].
  destruct (sourcepos (node ev)) eqn:Es; [ discriminate | ].
  assert (S : sourcepos_attrs self (node ev) st = (Ok [], st)).
  { unfold sourcepos_attrs. rewrite Es.
    destruct (truthy (dict_get (options self) "sourcepos")); reflexivity. }
  apply Z.ltb_lt in D.
  unfold render_event. rewrite (bind_Ok _ _ _ _ _ S).
  cbn [alt_text]. rewrite append_nil_r.
  repeat (apply orb_true_iff in Ht as [Ht|Ht]); apply String.eqb_eq in Ht.
  - assert (L : lookup_render_fn escape_xml self (node ev) st
                = (Ok (renderText escape_xml), st)).
    { unfold lookup_render_fn. rewrite Ht. reflexivity. }
    rewrite (bind_Ok _ _ _ _ _ L), Ht.
    eexists. unfold renderText, out. rewrite D. reflexivity.
  - assert (L : lookup_render_fn escape_xml self (node ev) st = (Ok renderEmph, st)).
    { unfold lookup_render_fn. rewrite Ht. reflexivity. }
    rewrite (bind_Ok _ _ _ _ _ L), Ht.
    unfold renderEmph, out. rewrite D.
    destruct (entering ev); eexists; reflexivity.
  - assert (L : lookup_render_fn escape_xml self (node ev) st = (Ok renderStrong, st)).
    { unfold lookup_render_fn. rewrite Ht. reflexivity. }
    rewrite (bind_Ok _ _ _ _ _ L), Ht.
    unfold renderStrong, out. rewrite D.
    destruct (entering ev); eexists; reflexivity.
Qed.

(** While tags are disabled, as inside an image, a run of events of Text,
    Emph and Strong nodes renders without error, leaves the depth as it
    was, and adds to the buffer the escaped literals of the Text nodes, each
    with its tags removed, and nothing for the emphasis: the alternative
    text is flattened. *)
Theorem alt_text_flattened (evs : list Event) (st : State) :
  forallb is_plain_inline evs = true ->
  0 < disable_tags st ->
  exists st',
    render_events escape_xml self evs st = (Ok tt, st')
    /\ buf st' = buf st +:+ alt_text escape_xml evs
    /\ disable_tags st' = disable_tags st.
Proof.
  revert st. induction evs as [|ev evs IH]; intros st Hp D.
  - exists st. cbn [alt_text]. rewrite append_nil_r. repeat split.
  - cbn [forallb] in Hp. apply andb_true_iff in Hp as [Hp1 Hp2].
    destruct (render_event_plain_inline ev st Hp1 D) as [lo E].
    cbn [render_events]. rewrite (bind_Ok _ _ _ _ _ E).
    destruct (IH {| buf := buf st +:+ alt_text escape_xml [ev]; last_out := lo;
                    disable_tags := disable_tags st |} Hp2 D)
      as (st' & R & B & Dp).
    exists st'. split; [ exact R | split; [ | exact Dp ] ].
    rewrite B. cbn [buf alt_text]. rewrite append_nil_r, append_assoc. reflexivity.
Qed.

End AltText.

Lemma alt_text_flattened_witness :
  forallb is_plain_inline
    [enter (text_node "a" None); enter (literal_node "Emph" "" None);
     enter (text_node "b" None); leave (literal_node "Emph" "" None)] = true
  /\ 0 < disable_tags inside_image
  /\ buf (exec (render_events escape_xml_spec plain_renderer
                  [enter (text_node "a" None); enter (literal_node "Emph" "" None);
                   enter (text_node "b" None); leave (literal_node "Emph" "" None)])
             inside_image)
     = buf inside_image +:+ "ab".
Proof.
  split; [ reflexivity | ]. split; [ reflexivity | ].
  destruct (alt_text_flattened escape_xml_spec plain_renderer
              [enter (text_node "a" None); enter (literal_node "Emph" "" None);
               enter (text_node "b" None); leave (literal_node "Emph" "" None)]
              inside_image eq_refl eq_refl) as (st' & R & B & _).
  unfold exec. rewrite R. exact B.
Defined.

(** ** The type tags the dispatcher accepts *)

Section TypeTags.

Variable escape_xml : string -> bool -> string.
Variable self : HtmlRenderer.

(** [getattr(self, 'render' + t)] finds an attribute exactly for the
    twenty node types and for the two tags [Nodes] and the empty string,
    which name the traversal itself; every other tag raises the
    [ValueError] of the dispatcher. *)
Theorem render_fn_found_iff (ty : string) :
  is_Some (render_attributes escape_xml self !! ("render" +:+ ty))
  <-> ty ∈ ["Nodes"; "Text"; "Softbreak"; "Hardbreak"; "Emph"; "Strong";
            "HtmlInline"; "CustomInline"; "Link"; "Image"; "Code"; "Document";
            "Paragraph"; "BlockQuote"; "Item"; "List"; "Heading"; "CodeBlock";
            "HtmlBlock"; "CustomBlock"; "ThematicBreak"; ""].
Proof.
  split.
  - intros [f Hf].
    destruct (decide (ty ∈ ["Nodes"; "Text"; "Softbreak"; "Hardbreak"; "Emph"; "Strong";
            "HtmlInline"; "CustomInline"; "Link"; "Image"; "Code"; "Document";
            "Paragraph"; "BlockQuote"; "Item"; "List"; "Heading"; "CodeBlock";
            "HtmlBlock"; "CustomBlock"; "ThematicBreak"; ""])) as [I|N];
      [ exact I | ].
    rewrite (render_attributes_None escape_xml self ty N) in Hf. discriminate.
  - intros H.
    repeat (apply elem_of_cons in H as [->|H]; [ eexists; reflexivity | ]).
    apply elem_of_nil in H. contradiction.
Qed.

(** A node whose type tag is [Nodes] or empty is dispatched to
    [renderNodes] itself, which does not take the arguments of a handler:
    the event raises a [TypeError], whatever its text, not the [ValueError]
    of an unknown node type, and changes nothing. *)
Theorem traversal_tag_raises_TypeError (ev : Event) (st : State) :
  t (node ev) = "Nodes" \/ t (node ev) = "" ->
  sourcepos (node ev) = None ->
  render_event escape_xml self ev st
  = (Raise TypeError, st).
Proof.
  intros Ht Hs.
  assert (S : sourcepos_attrs self (node ev) st = (Ok [], st)).
  { unfold sourcepos_attrs. rewrite Hs.
    destruct (truthy (dict_get (options self) "sourcepos")); reflexivity. }
  assert (L : lookup_render_fn escape_xml self (node ev) st
              = (Ok renderNodes_as_handler, st)).
  { unfold lookup_render_fn. destruct Ht as [Ht|Ht]; rewrite Ht; reflexivity. }
  unfold render_event.
  rewrite (bind_Ok _ _ _ _ _ S), (bind_Ok _ _ _ _ _ L). reflexivity.
Qed.

End TypeTags.

Lemma traversal_tag_raises_TypeError_witness :
  (t (node (enter (block_node "Nodes" ∅ None None))) = "Nodes"
   \/ t (node (enter (block_node "Nodes" ∅ None None))) = "")
  /\ render_event escape_xml_spec plain_renderer
       (enter (block_node "Nodes" ∅ None None)) fresh
     = (Raise TypeError, fresh).
Proof.
  split; [ left; reflexivity | ].
  exact (traversal_tag_raises_TypeError escape_xml_spec plain_renderer
           (enter (block_node "Nodes" ∅ None None)) fresh (or_introl eq_refl) eq_refl).
Defined.

(** ** The escaping used in the examples *)

(** The escaping modelled from the specification leaves the entities of an
    escaped text alone and escapes what is not escaped yet. *)
Example escape_xml_spec_twice :
  escape_xml_spec "a &amp; b < c" true = "a &amp; b &lt; c"
  /\ escape_xml_spec (escape_xml_spec "a & b < c" true) true
     = escape_xml_spec "a & b < c" true.
Proof. split; reflexivity. Qed.

(** The separators that a Python 3 [str] pattern counts as white space
    split an info string like a space does. *)
Example split_ws_separators :
  split_ws ("python" +:+ String "031" "extra") = ["python"; "extra"]
  /\ first_token (String "160" "python") = "".
Proof. split; reflexivity. Qed.
